(** * GroupEng controller: a shallow embedding of [controller.run]

    The development follows [src/controller.py].  Python objects become
    records, exceptions become the [Raise] branch of [result], and the
    collaborators that [run] imports from sibling modules
    ([input_parser.read_input], [load_classlist], [make_rule],
    [make_initial_groups], [apply_rules_list], [Rule.check]) are variables
    of the section in which [run] is defined.  In-place mutation of the
    course, the groups and the [filter] iterator is written as explicit
    state passing: a collaborator that mutates an argument returns its new
    contents.

    [run] below follows lines 53-87 and computes the values that the
    statistics report is written from; [run input = Ok out] reads: [run]
    is past phantom removal and holds [out], which every normal return of
    [controller.run] does.  The output functions [group_output],
    [student_full_output] and [student_augmented_output] are embedded on
    their own further down, as functions from what they are handed to
    what they write and to the exception that stops them. *)

From stdpp Require Import gmap strings list sorting pretty.
From Stdlib Require Import ZArith Lia.

Local Open Scope Z_scope.

(** ** Data model *)

(** Attribute values stored in [Student.data]. *)
Inductive value :=
| VStr (s : string)
| VNum (z : Z)
| VNone.

Global Instance value_eq_dec : EqDecision value.
Proof. solve_decision. Defined.

(** A student: the name of its identifier attribute and its attribute
    dictionary. *)
Record Student := mkStudent {
  identifier : string;
  data : gmap string value
}.

Global Instance Student_eq_dec : EqDecision Student.
Proof. solve_decision. Defined.

Record Group := mkGroup {
  group_number : Z;
  students : list Student
}.

Global Instance Group_eq_dec : EqDecision Group.
Proof. solve_decision. Defined.

Record Course := mkCourse {
  course_students : list Student;
  group_size : Z;
  uneven_size : option string
}.

(** [course.students = l] *)
Definition set_course_students (c : Course) (l : list Student) : Course :=
  {| course_students := l;
     group_size := group_size c;
     uneven_size := uneven_size c |}.

(** [group.students = l] *)
Definition set_group_students (g : Group) (l : list Student) : Group :=
  {| group_number := group_number g; students := l |}.

(** Rules are a closed set of kinds.  [Distribute(attribute, course, value)]
    keeps a reference to the course; the course is mutable state, so it is
    passed to [check] instead of being stored in the rule. *)
Inductive Rule :=
| Balance (attribute : string)
| Distribute (attribute : string) (target_value : value)
| OtherRule (name attribute : string).

Global Instance Rule_eq_dec : EqDecision Rule.
Proof. solve_decision. Defined.

(** [isinstance(x, Balance)] *)
Definition is_Balance (r : Rule) : bool :=
  match r with Balance _ => true | _ => false end.

(** The parsed input deck is a dictionary: [dek['k']] raises [KeyError] on
    a missing key, [dek.get('k')] returns [None]. *)
Record Deck (RuleDesc : Type) := mkDeck {
  dek_classlist : option string;
  dek_student_identifier : option string;
  dek_group_size : option Z;
  dek_uneven_size : option string;
  dek_rules : option (list RuleDesc)
}.
Arguments mkDeck {RuleDesc}.
Arguments dek_classlist {RuleDesc}.
Arguments dek_student_identifier {RuleDesc}.
Arguments dek_group_size {RuleDesc}.
Arguments dek_uneven_size {RuleDesc}.
Arguments dek_rules {RuleDesc}.

(** ** Exceptions *)

Inductive error :=
| KeyError
| IndexError
| UnevenGroups
| InputDeckError
| ConfigurationError
| ExternalError (msg : string).

Global Instance error_eq_dec : EqDecision error.
Proof. solve_decision. Defined.

Inductive result (A : Type) :=
| Ok (a : A)
| Raise (e : error).
Arguments Ok {A}.
Arguments Raise {A}.

Global Instance result_bind : MBind result := λ A B k m,
  match m with
  | Ok a => k a
  | Raise e => Raise e
  end.

Global Instance result_ret : MRet result := λ A a, Ok a.

(** [d['k']] on an optional entry. *)
Definition getitem {A} (o : option A) : result A :=
  match o with
  | Some a => Ok a
  | None => Raise KeyError
  end.

(** [l[0]] *)
Definition first {A} (l : list A) : result A :=
  match l with
  | a :: _ => Ok a
  | [] => Raise IndexError
  end.

(** A list comprehension whose body can raise: elements are evaluated left
    to right and the first exception aborts. *)
Fixpoint comprehension {A B} (f : A → result B) (l : list A) : result (list B) :=
  match l with
  | [] => Ok []
  | a :: l' =>
      b ← f a ;
      bs ← comprehension f l';
      Ok (b :: bs)
  end.

(** ** The lazy [filter] object

    [filter(pred, rules)] is an iterator over the list object it was given.
    Its state is the part of the list not yet visited. *)
Record filter_obj (A : Type) := mkFilter {
  filter_pred : A → bool;
  pending : list A
}.
Arguments mkFilter {A}.
Arguments filter_pred {A}.
Arguments pending {A}.

Definition py_filter {A} (p : A → bool) (l : list A) : filter_obj A :=
  mkFilter p l.

(** [next(it)]: skip rejected elements; [None] is [StopIteration]. *)
Fixpoint next_from {A} (p : A → bool) (l : list A) : option (A * list A) :=
  match l with
  | [] => None
  | a :: l' => if p a then Some (a, l') else next_from p l'
  end.

Definition filter_next {A} (it : filter_obj A) : option (A * filter_obj A) :=
  match next_from (filter_pred it) (pending it) with
  | Some (a, l') => Some (a, mkFilter (filter_pred it) l')
  | None => None
  end.

(** [for x in it: ...] run to completion: the elements produced, and the
    iterator left behind, which has nothing pending. *)
Definition drain {A} (it : filter_obj A) : list A * filter_obj A :=
  (List.filter (filter_pred it) (pending it), mkFilter (filter_pred it) []).

(** An iterator is exhausted when [next] raises [StopIteration]. *)
Definition exhausted {A} (it : filter_obj A) : Prop :=
  filter_next it = None.

(** The [for] loop over the iterator written out with [next]: call it
    until it raises [StopIteration], at most [fuel] times. *)
Fixpoint next_until_stop {A} (fuel : nat) (it : filter_obj A)
  : list A * filter_obj A :=
  match fuel with
  | O => ([], it)
  | S fuel' =>
      match filter_next it with
      | Some (a, it') =>
          let '(l, it'') := next_until_stop fuel' it' in (a :: l, it'')
      | None => ([], it)
      end
  end.

(** ** [list.sort(key = attrgetter('group_number'))]

    Python's sort is stable; so is this insertion sort: the head of the
    list is put in front of the first element of the sorted tail whose key
    is not smaller, hence in front of the elements with an equal key that
    followed it. *)
Fixpoint insert_by_key {A} (key : A → Z) (x : A) (l : list A) : list A :=
  match l with
  | [] => [x]
  | y :: l' =>
      if (key x <=? key y)%Z then x :: y :: l'
      else y :: insert_by_key key x l'
  end.

Fixpoint sort_by_key {A} (key : A → Z) (l : list A) : list A :=
  match l with
  | [] => []
  | x :: l' => insert_by_key key x (sort_by_key key l')
  end.

(** [sum(xs)]: left to right, starting from 0. *)
Definition py_sum (l : list Z) : Z := fold_left Z.add l 0.

(** ** Phantoms *)

(** The marker value of the identifier attribute of a phantom. *)
Definition phantom_marker : value := VStr "phantom".

(** [s.data[identifier] != 'phantom'] *)
Definition not_phantom (ident : string) (s : Student) : result bool :=
  v ← getitem (data s !! ident);
  Ok (negb (bool_decide (v = phantom_marker))).

(** [[s for s in l if s.data[identifier] != 'phantom']] *)
Fixpoint without_phantoms (ident : string) (l : list Student)
  : result (list Student) :=
  match l with
  | [] => Ok []
  | s :: l' =>
      keep ← not_phantom ident s;
      rest ← without_phantoms ident l';
      Ok (if keep : bool then s :: rest else rest)
  end.

(** The loop of lines 83-85: each group's member list is replaced in turn. *)
Fixpoint strip_groups (ident : string) (groups : list Group)
  : result (list Group) :=
  match groups with
  | [] => Ok []
  | g :: gs =>
      l ← without_phantoms ident (students g);
      rest ← strip_groups ident gs;
      Ok (set_group_students g l :: rest)
  end.

(** The pure reading of the phantom test, for statements. *)
Definition is_phantom (ident : string) (s : Student) : bool :=
  bool_decide (data s !! ident = Some phantom_marker).

(** The students of a list that are not phantoms, and a group reduced to
    them. *)
Definition real_students (ident : string) (l : list Student) : list Student :=
  List.filter (λ s, negb (is_phantom ident s)) l.

Definition strip_group (ident : string) (g : Group) : Group :=
  set_group_students g (real_students ident (students g)).

(** All the members of a list of groups, group after group. *)
Definition members (groups : list Group) : list Student :=
  concat (map students groups).

(** The student carries the identifier attribute, so that
    [s.data[identifier]] does not raise. *)
Definition has_identifier (ident : string) (s : Student) : Prop :=
  is_Some (data s !! ident).

(** ** The report *)

Inductive item :=
| MeanItem (attribute : string) (mean : string)
| FailedItem (r : Rule).

Definition is_MeanItem (i : item) : bool :=
  match i with MeanItem _ _ => true | FailedItem _ => false end.

Definition rule_attribute (r : Rule) : string :=
  match r with
  | Balance a => a
  | Distribute a _ => a
  | OtherRule _ a => a
  end.

(** What [run] holds once the phantoms are removed: the [groups] and the
    [suceeded] of its return statement, and the state the output files are
    written from.  The output directory name depends on the clock and is
    not part of the model, nor are the files themselves. *)
Record Out := mkOut {
  out_groups : list Group;
  out_suceeded : bool;
  out_course : Course;
  out_rules : list Rule;
  out_rule_report : list (Rule * Z);
  out_summaries : list (Z * list item)
}.

(** What the caller of [run] holds of the partition: the groups of a
    normal return.  [UnevenGroups] is raised without arguments and carries
    nothing. *)
Definition returned_partition (r : result Out) : option (list Group) :=
  match r with
  | Ok out => Some (out_groups out)
  | Raise _ => None
  end.

(** ** [run] *)

Section Controller.

(** The collaborators imported by [controller.py]. *)
Context {RuleDesc : Type}.
Variable read_input : string → result (Deck RuleDesc).
Variable load_classlist : string → option string → result (list Student).
Variable make_rule : RuleDesc → Course → result Rule.
(** [make_initial_groups(course, balance_rules)] adds phantoms to the
    course and advances the iterator it is handed. *)
Variable make_initial_groups :
  Course → filter_obj Rule → result (list Group * Course * filter_obj Rule).
(** [apply_rules_list(rules, groups, course.students)] moves students
    between the groups in place. *)
Variable apply_rules_list :
  list Rule → list Group → list Student →
  result (bool * list Group * list Student).
(** [check] of the rule kinds whose tolerance the specification leaves
    open, and the formatted group mean of the report. *)
Variable check_other : Course → Rule → Group → bool.
Variable mean_text : Group → Rule → string.

(** Modelled from the spec: [Rule.check] lives in the rule module, which
    is not part of the sources at hand.  Section 4.3: a Distribute rule
    is satisfied by a group that contains at most one member whose
    attribute equals the target value.  [check] reads the group and the
    course and changes neither. *)
Definition count_value (a : string) (v : value) (l : list Student) : nat :=
  length (List.filter (λ s, bool_decide (data s !! a = Some v)) l).

Definition check (c : Course) (r : Rule) (g : Group) : bool :=
  match r with
  | Distribute a v => bool_decide (count_value a v (students g) ≤ 1)%nat
  | _ => check_other c r g
  end.

(** Lines 76-77. *)
Definition failures (c : Course) (groups : list Group) (r : Rule) : Z :=
  py_sum (map (λ g, 1 - Z.b2z (check c r g)) groups).

(** Lines 53-69: everything up to the call of the rule engine. *)
Record Prepared := mkPrepared {
  p_identifier : string;
  p_course : Course;
  p_rules : list Rule;
  p_groups : list Group;
  p_balance_rules : filter_obj Rule
}.

Definition prepare (input_deck : string) : result Prepared :=
  dek ← read_input input_deck;
  classlist ← getitem (dek_classlist dek);
  students ← load_classlist classlist (dek_student_identifier dek);
  s0 ← first students;
  let identifier := identifier s0 in
  group_size ← getitem (dek_group_size dek);
  let course := mkCourse students group_size (dek_uneven_size dek) in
  descs ← getitem (dek_rules dek);
  rules ← comprehension (λ r, make_rule r course) descs;
  let balance_rules := py_filter is_Balance rules in
  '(groups, course, balance_rules) ← make_initial_groups course balance_rules;
  let rules := Distribute identifier phantom_marker :: rules in
  Ok (mkPrepared identifier course rules groups balance_rules).

(** Lines 71-73: the rule engine, then the sort by group number. *)
Record Enforced := mkEnforced {
  e_identifier : string;
  e_course : Course;
  e_rules : list Rule;
  e_groups : list Group;
  e_suceeded : bool;
  e_balance_rules : filter_obj Rule
}.

Definition enforce (p : Prepared) : result Enforced :=
  '(suceeded, groups, studs) ←
    apply_rules_list (p_rules p) (p_groups p) (course_students (p_course p));
  let course := set_course_students (p_course p) studs in
  let groups := sort_by_key group_number groups in
  Ok (mkEnforced (p_identifier p) course (p_rules p) groups suceeded
                 (p_balance_rules p)).

(** Lines 137-147.  [balance_rules] is one iterator object shared by all
    passes of the outer loop. *)
Fixpoint group_summaries (c : Course) (rules : list Rule)
    (groups : list Group) (balance_rules : filter_obj Rule)
  : list (Z * list item) * filter_obj Rule :=
  match groups with
  | [] => ([], balance_rules)
  | g :: gs =>
      let '(brs, balance_rules) := drain balance_rules in
      let items :=
        (map (λ r, MeanItem (rule_attribute r) (mean_text g r)) brs ++
         map FailedItem (List.filter (λ r, negb (check c r g)) rules)) in
      let '(rest, balance_rules) := group_summaries c rules gs balance_rules in
      ((group_number g, items) :: rest, balance_rules)
  end.

(** Lines 76-87, and the values that lines 117-118 and 137-147 compute for
    the statistics report.  The directory and the files of lines 93-109 and
    the formatted means of lines 119-130 are not part of the returned
    value: [os.mkdir], [open], the output functions modelled further down
    and [mean] and [std] can still raise on the state [finish] returns.  A
    normal return of [controller.run] is a normal return of [finish] with
    the same groups, flag, course and rules; the converse needs those
    calls to return, which is why the statements about every run take
    [run input = Ok out] as a hypothesis and never as a conclusion. *)
Definition finish (e : Enforced) : result Out :=
  r0 ← first (e_rules e);
  if negb (failures (e_course e) (e_groups e) r0 =? 0) then Raise UnevenGroups
  else
    groups ← strip_groups (e_identifier e) (e_groups e);
    studs ← without_phantoms (e_identifier e) (course_students (e_course e));
    let course := set_course_students (e_course e) studs in
    let rule_report :=
      map (λ r, (r, failures course groups r)) (tail (e_rules e)) in
    let summaries :=
      fst (group_summaries course (e_rules e) groups (e_balance_rules e)) in
    Ok (mkOut groups (e_suceeded e) course (e_rules e) rule_report summaries).

Definition run (input_deck : string) : result Out :=
  p ← prepare input_deck;
  e ← enforce p;
  finish e.

(** Lines 53-73 on their own: the state in which the test of line 79 is
    reached. *)
Definition enforcement_pass (input_deck : string) : result Enforced :=
  p ← prepare input_deck;
  enforce p.

(** What the statements below ask of the collaborators.

    Section 4.2: the initial groups partition the padded roster, and the
    padding adds phantoms only. *)
Definition partitions_the_roster : Prop :=
  ∀ c it groups c' it' s0 rest,
    course_students c = s0 :: rest →
    make_initial_groups c it = Ok (groups, c', it') →
    members groups ≡ₚ course_students c' ∧
    real_students (identifier s0) (course_students c')
      ≡ₚ real_students (identifier s0) (course_students c).

(** Section 4.1: the engine only moves students between groups. *)
Definition moves_students_only : Prop :=
  ∀ rules groups studs suceeded groups' studs',
    apply_rules_list rules groups studs = Ok (suceeded, groups', studs') →
    members groups' ≡ₚ members groups ∧ studs' ≡ₚ studs.

(** Section 4.2, step 3: the partitioner goes through every Balance rule
    it is handed. *)
Definition drains_balance_rules : Prop :=
  ∀ c it groups c' it',
    make_initial_groups c it = Ok (groups, c', it') → exhausted it'.

(** The reading under which an ungroupable run would still hand the
    partition to its caller: whenever the rule at position 0 has failing
    groups after the enforcement pass, [run] returns groups. *)
Definition partition_returned_when_ungroupable (input_deck : string) : Prop :=
  ∀ e,
    enforcement_pass input_deck = Ok e →
    failures (e_course e) (e_groups e)
             (Distribute (e_identifier e) phantom_marker) ≠ 0 →
    ∃ groups, returned_partition (run input_deck) = Some groups.

(** The reading under which the success flag follows the rule at position
    0: once the enforcement pass is complete, [run] returns a true flag
    exactly when that rule has no failing group. *)
Definition success_is_rule_zero (input_deck : string) : Prop :=
  ∀ e,
    enforcement_pass input_deck = Ok e →
    (∃ out, run input_deck = Ok out ∧ out_suceeded out = true) ↔
    failures (e_course e) (e_groups e)
             (Distribute (e_identifier e) phantom_marker) = 0.


End Controller.

(** ** The initial partitioner

    [group.make_initial_groups] is not among the sources at hand; its
    behaviour is taken from section 4.2 of the specification. *)
Module Partitioner.

(** Modelled from the spec: the phantom Student Record of section 3, a
    sentinel whose identifier attribute is the reserved marker and which
    carries no other attribute. *)
Definition phantom (ident : string) : Student :=
  mkStudent ident {[ ident := phantom_marker ]}.

(** Modelled from the spec: the strength a Balance rule extracts from a
    student (section 3), the numeric value of the rule's attribute. *)
Definition get_strength (r : Rule) (s : Student) : Z :=
  match data s !! rule_attribute r with
  | Some (VNum z) => z
  | _ => 0
  end.

(** ceil(n / d) for a positive [d]. *)
Definition ceil_div (n d : Z) : Z := (n + d - 1) / d.

(** Dealing round-robin: the next student goes to the group at the head
    of the cycle, which then moves to the back. *)
Fixpoint deal {A} (l : list A) (groups : list (list A)) : list (list A) :=
  match l with
  | [] => groups
  | x :: l' =>
      match groups with
      | [] => []
      | g :: rest => deal l' (rest ++ [g ++ [x]])
      end
  end.

(** Step 4: group numbers are assigned sequentially. *)
Fixpoint number_groups (n : Z) (members : list (list Student)) : list Group :=
  match members with
  | [] => []
  | m :: ms => mkGroup n m :: number_groups (n + 1) ms
  end.

(** Modelled from the spec: step 1 of section 4.2 rounds the group count
    up or down, "ceil (or floor, per uneven_size policy)", and names no
    policy token.  The token of the policy that rounds down is taken to be
    the word of the specification, floor; every other token, and a deck
    without one, rounds up and pads with phantoms. *)
Definition rounds_down (c : Course) : bool :=
  bool_decide (uneven_size c = Some "floor"%string).

Definition group_count (c : Course) : Z :=
  let n := Z.of_nat (length (course_students c)) in
  if rounds_down c then n / group_size c else ceil_div n (group_size c).

Definition phantom_count (c : Course) : Z :=
  group_count c * group_size c - Z.of_nat (length (course_students c)).

(** Step 2: the phantoms follow the roster.  A count that is not positive
    injects none. *)
Definition padded_roster (c : Course) : list Student :=
  let ident :=
    match course_students c with
    | s0 :: _ => identifier s0
    | [] => EmptyString
    end in
  course_students c ++ replicate (Z.to_nat (phantom_count c)) (phantom ident).

(** Modelled from the spec: section 4.2, steps 1 to 4 and its error
    condition, read with the scenario of section 8: a group size that is
    not positive, or larger than the roster, is a configuration error
    raised before any group is made.  Padding never shortens the roster,
    so a group size that exceeds the padded roster exceeds the roster.
    The seeding of step 3 sorts the padded roster by each Balance rule's
    strength in turn and deals the result round-robin. *)
Definition make_initial_groups (c : Course) (balance_rules : filter_obj Rule)
  : result (list Group * Course * filter_obj Rule) :=
  if group_size c <=? 0 then Raise ConfigurationError
  else if Z.of_nat (length (course_students c)) <? group_size c then
    Raise ConfigurationError
  else
    let padded := padded_roster c in
    let '(brs, balance_rules) := drain balance_rules in
    let seeded :=
      fold_left (λ l r, sort_by_key (get_strength r) l) brs padded in
    let members := deal seeded (replicate (Z.to_nat (group_count c)) []) in
    Ok (number_groups 1 members, set_course_students c padded, balance_rules).


End Partitioner.

(** The padded roster after the seeding sorts of step 3. *)
Definition seeded_roster (c : Course) (it : filter_obj Rule) : list Student :=
  fold_left (λ l r, sort_by_key (Partitioner.get_strength r) l) (drain it).1
            (Partitioner.padded_roster c).

(** ** Rule engines for the examples

    [rule.apply_rules_list] is a heuristic whose tie-breaks and iteration
    cap the specification leaves open.  The general statements below take
    the engine as a parameter; the examples run one of these two. *)
Module Engine.

(** The engine that finds nothing to move. *)
Definition apply_rules_list_id (rules : list Rule) (groups : list Group)
    (studs : list Student) : result (bool * list Group * list Student) :=
  Ok (true, groups, studs).

(** An engine that hands the groups and the roster back in reverse order
    and reports a rule it could not satisfy. *)
Definition apply_rules_list_rev (rules : list Rule) (groups : list Group)
    (studs : list Student) : result (bool * list Group * list Student) :=
  Ok (false, reverse groups, reverse studs).

End Engine.

(** ** Concrete inputs *)
Module Example.

Definition student (id : string) (gpa : Z) : Student :=
  mkStudent "ID" (<["gpa" := VNum gpa]> {[ "ID" := VStr id ]}).

Definition roster7 : list Student :=
  [student "ann" 31; student "bob" 25; student "cy" 38; student "dee" 29;
   student "eve" 35; student "fay" 22; student "gus" 40].

Definition roster3 : list Student := take 3 roster7.
Definition roster4 : list Student := take 4 roster7.

Definition user_rules : list Rule :=
  [Balance "gpa"; OtherRule "Cluster" "gpa"; Balance "ID"].

Definition deck (classlist : string) (size : Z) : Deck Rule :=
  mkDeck (Some classlist) (Some "ID"%string) (Some size) None (Some user_rules).

(** The input decks, by file name.  The class list of the last one has a
    student whose identifier is the word that marks phantoms. *)
Definition read_input (input_deck : string) : result (Deck Rule) :=
  if String.eqb input_deck "three_by_two" then Ok (deck "three.csv" 2)
  else if String.eqb input_deck "four_by_two" then Ok (deck "four.csv" 2)
  else if String.eqb input_deck "seven_by_five" then Ok (deck "seven.csv" 5)
  else if String.eqb input_deck "three_by_zero" then Ok (deck "three.csv" 0)
  else if String.eqb input_deck "three_by_five" then Ok (deck "three.csv" 5)
  else if String.eqb input_deck "namesake" then
    Ok (mkDeck (Some "namesake.csv"%string) (Some "ID"%string) (Some 2) None
               (Some [Distribute "gpa" (VNum 25)]))
  else Raise (ExternalError "no such input deck").

Definition load_classlist (classlist : string) (ident : option string)
  : result (list Student) :=
  if String.eqb classlist "three.csv" then Ok roster3
  else if String.eqb classlist "four.csv" then Ok roster4
  else if String.eqb classlist "seven.csv" then Ok roster7
  else if String.eqb classlist "namesake.csv" then
    Ok [student "ann" 25; student "phantom" 25]
  else Raise (ExternalError "no such class list").

(** The descriptors of the examples are the rules themselves. *)
Definition make_rule (d : Rule) (c : Course) : result Rule := Ok d.

Definition check_other (c : Course) (r : Rule) (g : Group) : bool :=
  match r with
  | OtherRule _ _ => false
  | _ => true
  end.

Definition mean_text (g : Group) (r : Rule) : string := "0.00".

Definition run_with engine : string → result Out :=
  run read_input load_classlist make_rule Partitioner.make_initial_groups
      engine check_other mean_text.

End Example.

(** ** The output functions

    A file written by a function is the list of the strings handed to
    [outf.write], in order, together with the exception that ended the
    function, if any: what was written before an exception stays
    written. *)
Definition written : Type := list string * option error.

(** The line feed, ['\n']. *)
Definition newline : string := String (Ascii.ascii_of_nat 10) EmptyString.

(** A loop that writes one string per element and stops at the first
    element whose string cannot be made. *)
Fixpoint write_each {A} (line : A → result string) (l : list A) : written :=
  match l with
  | [] => ([], None)
  | a :: l' =>
      match line a with
      | Raise e => ([], Some e)
      | Ok w => let '(ws, e) := write_each line l' in (w :: ws, e)
      end
  end.

(** [str(v)] of an attribute value. *)
Definition str_value (v : value) : string :=
  match v with
  | VStr s => s
  | VNum z => pretty z
  | VNone => "None"
  end.

(** The exception [<] raises on operands it does not order.  It is raised
    by the interpreter, not by [controller.py]. *)
Definition TypeError : error := ExternalError "TypeError".

(** [a < b] on attribute values: strings are ordered with strings, numbers
    with numbers, and anything else is a [TypeError]. *)
Definition value_lt (a b : value) : result bool :=
  match a, b with
  | VStr s, VStr t => Ok (String.ltb s t)
  | VNum x, VNum y => Ok (x <? y)
  | _, _ => Raise TypeError
  end.

(** [sorted(l, key = ...)] on elements paired with their keys.  The sort
    is stable and uses [<] only: the head goes in front of the first
    element of the sorted tail that is not smaller.  Any comparison sort
    of two or more elements compares every element with some other one, so
    it raises as soon as the keys are not all strings or all numbers, as
    this one does; on keys of one kind no comparison raises and the stable
    order is unique. *)
Fixpoint insert_by_value {A} (x : value * A) (l : list (value * A))
  : result (list (value * A)) :=
  match l with
  | [] => Ok [x]
  | y :: l' =>
      smaller ← value_lt y.1 x.1;
      if smaller : bool then
        rest ← insert_by_value x l';
        Ok (y :: rest)
      else Ok (x :: y :: l')
  end.

Fixpoint sorted_by_value {A} (l : list (value * A)) : result (list (value * A)) :=
  match l with
  | [] => Ok []
  | x :: l' =>
      tail ← sorted_by_value l';
      insert_by_value x tail
  end.

(** The string of a key that is a string, and the order of two keyed
    elements by those strings. *)
Definition string_key (v : value) : string :=
  match v with
  | VStr s => s
  | _ => EmptyString
  end.

Definition is_string (v : value) : Prop := ∃ s, v = VStr s.

Definition names_ascending {A} (a b : value * A) : Prop :=
  String.ltb (string_key b.1) (string_key a.1) = false.

(** Modelled from the spec: [s[identifier]], the attribute lookup by name
    of section 4.1; [Student.__getitem__] is not among the sources.  It
    reads the dictionary [run] reads with [s.data[identifier]]. *)
Definition student_getitem (s : Student) (key : string) : result value :=
  getitem (data s !! key).

(** Lines 158-161: the line of one group. *)
Definition group_line (ident sep : string) (g : Group) : result string :=
  keys ← comprehension (λ s, student_getitem s ident) (students g);
  sorted ← sorted_by_value (zip keys (students g));
  names ← comprehension (λ s, v ← student_getitem s ident; Ok (str_value v))
                        (map snd sorted);
  Ok ("Group " +:+ pretty (group_number g) +:+ sep
      +:+ String.concat sep names +:+ newline).

(** Lines 155-161.  The list of groups is sorted in place: the function
    hands back the list as the caller sees it afterwards. *)
Definition group_output (groups : list Group) (ident sep : string)
  : list Group * written :=
  let groups := sort_by_key group_number groups in
  (groups, write_each (group_line ident sep) groups).

(** [s * n] on strings. *)
Fixpoint repeat_string (s : string) (n : nat) : string :=
  match n with
  | O => EmptyString
  | S n' => s +:+ repeat_string s n'
  end.

(** [l[i - 1]] for an index [i] that counts from 0: index [-1] is the last
    element. *)
Definition item_before {A} (l : list A) (i : nat) : result A :=
  match i with
  | O => match last l with Some a => Ok a | None => Raise IndexError end
  | S j => match l !! j with Some a => Ok a | None => Raise IndexError end
  end.

Section Output.

(** What the functions use of the student and rule objects: the classes
    are in modules that are not among the sources. *)
Context {Obj Grp : Type}.
Variable headers : Obj → list string.
Variable full_record : Obj → string.
Variable obj_group_number : Obj → Z.
Variable obj_group : Obj → Grp.
Variable rule_name : Rule → string.
(** [str(mean(group.students, r.get_strength))] and
    [r.check(group.students)], which is handed the member list. *)
Variable mean_str : Grp → Rule → string.
Variable check_members : Rule → Grp → bool.

(** Lines 163-166. *)
Definition student_full_output (students : list Obj) : written :=
  match students with
  | [] => ([], Some IndexError)
  | s0 :: _ =>
      ((String.concat ", " (headers s0) +:+ newline)
       :: map (λ s, full_record s +:+ newline) students,
       None)
  end.

(** Lines 187-190: the summary of a group. *)
Definition summary_items (rules : list Rule) (group : Grp) : list string :=
  let balance_rules :=
    List.filter (λ r, String.eqb (rule_name r) "Balance") rules in
  map (mean_str group) balance_rules ++
  map (λ r, rule_name r +:+ ": " +:+ rule_attribute r)
      (List.filter (λ r, negb (check_members r group)) rules).

(** Lines 180-195: the loop over the sorted students.  [all] is the whole
    sorted list, [i] the index of the head of [rest] in it, [current] the
    variable [group_number]. *)
Fixpoint augmented_rows (rules : list Rule) (width : nat) (all : list Obj)
    (i : nat) (rest : list Obj) (current : Z) : written :=
  match rest with
  | [] => ([], None)
  | s :: rest' =>
      if bool_decide (obj_group_number s ≠ current) then
        match item_before all i with
        | Raise e => ([], Some e)
        | Ok previous =>
            let '(ws, e) :=
              augmented_rows rules width all (S i) rest' (obj_group_number s) in
            ("summary"
             :: repeat_string ", " width
             :: String.concat ", " (summary_items rules (obj_group previous))
             :: (newline +:+ newline)
             :: (full_record s +:+ newline)
             :: ws, e)
        end
      else
        let '(ws, e) := augmented_rows rules width all (S i) rest' current in
        ((full_record s +:+ newline) :: ws, e)
  end.

(** Lines 169-195. *)
Definition student_augmented_output (students : list Obj) (rules : list Rule)
  : written :=
  match students with
  | [] => ([], Some IndexError)
  | s0 :: _ =>
      let balance_rules :=
        List.filter (λ r, String.eqb (rule_name r) "Balance") rules in
      let add_headers :=
        [EmptyString] ++ map (λ r, "group " +:+ rule_attribute r +:+ " mean")
                    balance_rules
        ++ ["Rules Broken"] in
      let width := length (headers s0) in
      let sorted := sort_by_key obj_group_number students in
      let '(ws, e) := augmented_rows rules width sorted 0 sorted 1 in
      (String.concat ", " (headers s0)
       :: String.concat ", " add_headers
       :: newline
       :: ws, e)
  end.

End Output.

(** How often the group number changes along a list of numbers, counted
    from a number held before the first. *)
Fixpoint group_changes (current : Z) (numbers : list Z) : nat :=
  match numbers with
  | [] => 0
  | n :: l =>
      (if bool_decide (n ≠ current) then 1 else 0) + group_changes n l
  end.

(** ** A class list with its groups, for the output functions *)
Module Sheet.

(** A student of the sheet: name, group number, grade. *)
Definition headers (s : string * Z * Z) : list string := ["ID"; "gpa"].
Definition full_record (s : string * Z * Z) : string :=
  s.1.1 +:+ ", " +:+ pretty s.2.
Definition obj_group_number (s : string * Z * Z) : Z := s.1.2.
Definition obj_group (s : string * Z * Z) : Z := s.1.2.
Definition rule_name (r : Rule) : string :=
  match r with
  | Balance _ => "Balance"
  | Distribute _ _ => "Distribute"
  | OtherRule n _ => n
  end.
Definition mean_str (g : Z) (r : Rule) : string := "3.0".
Definition check_members (r : Rule) (g : Z) : bool := bool_decide (g ≠ 2).

Definition rules : list Rule :=
  [Distribute "ID" phantom_marker; Balance "gpa"; OtherRule "Cluster" "gpa"].

Definition class : list (string * Z * Z) :=
  [("ann", 2, 31); ("bob", 1, 25); ("cy", 3, 38); ("dee", 1, 29);
   ("eve", 2, 35)]%string.

(** The same class when the numbering starts at 2. *)
Definition class_from_two : list (string * Z * Z) :=
  [("ann", 3, 31); ("bob", 2, 25); ("cy", 4, 38)]%string.

Definition augmented (students : list (string * Z * Z)) : written :=
  student_augmented_output headers full_record obj_group_number obj_group
    rule_name mean_str check_members students rules.

End Sheet.

(** ** Inputs at the edges *)
Module Edge.

Definition pupil (id : string) (gpa : Z) : Student :=
  mkStudent "ID" (<["gpa" := VNum gpa]> {[ "ID" := VStr id ]}).

(** A record that lost its identifier column. *)
Definition nameless (gpa : Z) : Student :=
  mkStudent "ID" {[ "gpa" := VNum gpa ]}.

Definition class5 : list Student :=
  [pupil "ann" 31; pupil "bob" 25; pupil "cy" 38; pupil "dee" 29;
   pupil "eve" 35].

(** Rule descriptors are lines of text here. *)
Definition make_rule (d : string) (c : Course) : result Rule :=
  if String.eqb d "balance gpa" then Ok (Balance "gpa")
  else if String.eqb d "cluster gpa" then Ok (OtherRule "Cluster" "gpa")
  else if String.eqb d "distribute gpa 25" then Ok (Distribute "gpa" (VNum 25))
  else Raise (ExternalError d).

Definition good_rules : list string :=
  ["cluster gpa"; "balance gpa"; "distribute gpa 25"].

Definition read_input (input_deck : string) : result (Deck string) :=
  if String.eqb input_deck "five_by_two" then
    Ok (mkDeck (Some "five.csv"%string) None (Some 2) None (Some good_rules))
  else if String.eqb input_deck "no_classlist" then
    Ok (mkDeck None None (Some 2) None (Some good_rules))
  else if String.eqb input_deck "no_group_size" then
    Ok (mkDeck (Some "five.csv"%string) None None None (Some good_rules))
  else if String.eqb input_deck "no_rules" then
    Ok (mkDeck (Some "five.csv"%string) None (Some 2) None None)
  else if String.eqb input_deck "empty_class" then
    Ok (mkDeck (Some "empty.csv"%string) None (Some 2) None (Some good_rules))
  else if String.eqb input_deck "typo_in_rules" then
    Ok (mkDeck (Some "five.csv"%string) None (Some 2) None
          (Some ["balance gpa"; "balanse gpa"; "no such rule"]%string))
  else if String.eqb input_deck "nameless" then
    Ok (mkDeck (Some "nameless.csv"%string) None (Some 2) None (Some good_rules))
  else if String.eqb input_deck "only_a_phantom" then
    Ok (mkDeck (Some "phantom.csv"%string) None (Some 1) None (Some good_rules))
  else Raise (ExternalError "no such input deck").

Definition load_classlist (classlist : string) (ident : option string)
  : result (list Student) :=
  if String.eqb classlist "five.csv" then Ok class5
  else if String.eqb classlist "empty.csv" then Ok []
  else if String.eqb classlist "nameless.csv" then
    Ok [pupil "ann" 31; nameless 25]
  else if String.eqb classlist "phantom.csv" then Ok [pupil "phantom" 0]
  else Raise (ExternalError "no such class list").

Definition check_other (c : Course) (r : Rule) (g : Group) : bool :=
  match r with
  | OtherRule _ _ => bool_decide (group_number g = 1)
  | _ => true
  end.

Definition mean_text (g : Group) (r : Rule) : string := "0.00".

(** A partitioner that ignores the Balance rules it is handed: one group
    with the whole roster, the iterator untouched. *)
Definition one_group (c : Course) (balance_rules : filter_obj Rule)
  : result (list Group * Course * filter_obj Rule) :=
  Ok ([mkGroup 2 (course_students c); mkGroup 1 []], c, balance_rules).


Definition run_with partitioner engine : string → result Out :=
  run read_input load_classlist make_rule partitioner engine check_other
      mean_text.

End Edge.

(** * Properties *)

(** ** The exception monad *)

Lemma bind_Ok {A B} (m : result A) (k : A → result B) (b : B) :
  m ≫= k = Ok b → ∃ a, m = Ok a ∧ k a = Ok b.
Proof. destruct m as [a|e]; simpl; [eauto | discriminate]. Qed.

Lemma bind_Raise {A B} (m : result A) (k : A → result B) (e : error) :
  m ≫= k = Raise e → m = Raise e ∨ ∃ a, m = Ok a ∧ k a = Raise e.
Proof. destruct m as [a|e']; simpl; [eauto | intros [= ->]; auto]. Qed.

Lemma getitem_Ok {A} (o : option A) (a : A) : getitem o = Ok a → o = Some a.
Proof. destruct o; simpl; congruence. Qed.

Lemma first_Ok {A} (l : list A) (a : A) : first l = Ok a → ∃ l', l = a :: l'.
Proof. destruct l; simpl; [discriminate | intros [= ->]; eauto]. Qed.

(** Peel one [x ← m; k] off a hypothesis [H : ... = Ok _]. *)
Ltac bind_inv H x Hx :=
  apply bind_Ok in H; destruct H as (x & Hx & H).

Lemma comprehension_Forall2 {A B} (f : A → result B) l bs :
  comprehension f l = Ok bs → Forall2 (λ a b, f a = Ok b) l bs.
Proof.
  revert bs. induction l as [|a l IH]; simpl; intros bs H.
  - injection H as <-. constructor.
  - bind_inv H b Hb. bind_inv H bs' Hbs. injection H as <-.
    constructor; auto.
Qed.

(** ** Sorting keeps the elements *)

Lemma insert_by_key_Permutation {A} (key : A → Z) x l :
  insert_by_key key x l ≡ₚ x :: l.
Proof.
  induction l as [|y l IH]; simpl; [done|].
  destruct (key x <=? key y); [done|].
  rewrite IH. apply Permutation_swap.
Qed.

Lemma sort_by_key_Permutation {A} (key : A → Z) (l : list A) :
  sort_by_key key l ≡ₚ l.
Proof.
  induction l as [|x l IH]; simpl; [done|].
  by rewrite insert_by_key_Permutation, IH.
Qed.

Lemma insert_by_key_le {A} (key : A → Z) x l :
  Sorted (λ a b, key a ≤ key b) l →
  Sorted (λ a b, key a ≤ key b) (insert_by_key key x l).
Proof.
  induction 1 as [|y l Hs IH Hhd]; simpl.
  - repeat constructor.
  - destruct (Z.leb_spec (key x) (key y)).
    + repeat constructor; auto.
    + constructor; [done|].
      destruct Hhd as [|z l Hyz]; simpl.
      * constructor. lia.
      * destruct (key x <=? key z); constructor; lia.
Qed.

Lemma sort_by_key_Sorted {A} (key : A → Z) (l : list A) :
  Sorted (λ a b, key a ≤ key b) (sort_by_key key l).
Proof.
  induction l; simpl; [constructor | by apply insert_by_key_le].
Qed.

(** ** Phantom removal *)

Lemma not_phantom_Ok ident s b :
  not_phantom ident s = Ok b → b = negb (is_phantom ident s).
Proof.
  unfold not_phantom, is_phantom. destruct (data s !! ident) as [v|]; simpl;
    [|discriminate].
  intros [= <-]. f_equal.
  apply bool_decide_ext. split; congruence.
Qed.

Lemma without_phantoms_Ok ident l l' :
  without_phantoms ident l = Ok l' → l' = real_students ident l.
Proof.
  revert l'. induction l as [|s l IH]; simpl; intros l' H.
  - by injection H as <-.
  - bind_inv H keep Hk. bind_inv H rest Hr. injection H as <-.
    apply not_phantom_Ok in Hk as ->. by rewrite (IH _ Hr).
Qed.

Lemma without_phantoms_total ident l :
  Forall (has_identifier ident) l →
  without_phantoms ident l = Ok (real_students ident l).
Proof.
  induction 1 as [|s l [v Hv] _ IH]; simpl; [done|].
  unfold not_phantom at 1. rewrite Hv. simpl. rewrite IH. simpl.
  unfold is_phantom. rewrite Hv.
  f_equal. erewrite bool_decide_ext; [done|]. split; congruence.
Qed.

Lemma strip_groups_Ok ident groups groups' :
  strip_groups ident groups = Ok groups' →
  groups' = map (strip_group ident) groups.
Proof.
  revert groups'. induction groups as [|g gs IH]; simpl; intros gs' H.
  - by injection H as <-.
  - bind_inv H l Hl. bind_inv H rest Hr. injection H as <-.
    apply without_phantoms_Ok in Hl as ->. by rewrite (IH _ Hr).
Qed.

Lemma strip_groups_total ident groups :
  Forall (λ g, Forall (has_identifier ident) (students g)) groups →
  strip_groups ident groups = Ok (map (strip_group ident) groups).
Proof.
  induction 1 as [|g gs Hg _ IH]; simpl; [done|].
  by rewrite (without_phantoms_total _ _ Hg), IH.
Qed.

Lemma real_students_no_phantom ident l :
  Forall (λ s, is_phantom ident s = false) (real_students ident l).
Proof.
  apply List.Forall_forall. intros s Hs.
  apply List.filter_In in Hs as [_ Hs]. by apply negb_true_iff.
Qed.

(** ** Counting *)

Lemma fold_left_add_failing {A} (f : A → bool) (l : list A) (acc : Z) :
  fold_left Z.add (map (λ a, 1 - Z.b2z (f a)) l) acc
  = acc + Z.of_nat (length (List.filter (λ a, negb (f a)) l)).
Proof.
  revert acc. induction l as [|a l IH]; intros acc; simpl; [lia|].
  rewrite IH. destruct (f a); simpl; lia.
Qed.

Lemma filter_negb_nil_Forall {A} (f : A → bool) (l : list A) :
  List.filter (λ a, negb (f a)) l = [] ↔ Forall (λ a, f a = true) l.
Proof.
  induction l as [|a l IH]; simpl.
  - split; [constructor | done].
  - destruct (f a) eqn:Hf; simpl.
    + rewrite IH. split; [by constructor | by inversion 1].
    + split; [done | inversion 1; congruence].
Qed.

(** ** The iterator *)

Lemma next_from_None {A} (p : A → bool) (l : list A) :
  next_from p l = None ↔ List.filter p l = [].
Proof.
  induction l as [|a l IH]; simpl; [done|].
  destruct (p a); [split; discriminate | done].
Qed.

Lemma exhausted_filter {A} (it : filter_obj A) :
  exhausted it ↔ List.filter (filter_pred it) (pending it) = [].
Proof.
  unfold exhausted, filter_next. rewrite <- next_from_None.
  destruct (next_from _ _) as [[a l']|]; split; congruence.
Qed.

Lemma drain_exhausted {A} (it : filter_obj A) : exhausted (drain it).2.
Proof. done. Qed.

Lemma drain_of_exhausted {A} (it : filter_obj A) :
  exhausted it → (drain it).1 = [].
Proof. intros H. by apply exhausted_filter. Qed.

(** The first element a loop over the iterator sees is the one [next]
    returns, and the loop goes on from the iterator [next] leaves. *)
Lemma drain_next {A} (it it' : filter_obj A) (a : A) :
  filter_next it = Some (a, it') →
  (drain it).1 = a :: (drain it').1.
Proof.
  unfold filter_next, drain. destruct it as [p l]; simpl.
  induction l as [|b l IH]; simpl; [done|].
  destruct (p b) eqn:Hb.
  - by intros [= -> <-].
  - exact IH.
Qed.

(** ** The controller *)

Section ControllerFacts.

Context {RuleDesc : Type}.
Variable read_input : string → result (Deck RuleDesc).
Variable load_classlist : string → option string → result (list Student).
Variable make_rule : RuleDesc → Course → result Rule.
Variable make_initial_groups :
  Course → filter_obj Rule → result (list Group * Course * filter_obj Rule).
Variable apply_rules_list :
  list Rule → list Group → list Student →
  result (bool * list Group * list Student).
Variable check_other : Course → Rule → Group → bool.
Variable mean_text : Group → Rule → string.

Local Abbreviation prepare :=
  (prepare read_input load_classlist make_rule make_initial_groups).
Local Abbreviation enforce := (enforce apply_rules_list).
Local Abbreviation finish := (finish check_other mean_text).
Local Abbreviation check := (check check_other).
Local Abbreviation failures := (failures check_other).
Local Abbreviation enforcement_pass :=
  (enforcement_pass read_input load_classlist make_rule make_initial_groups
                    apply_rules_list).
Local Abbreviation run :=
  (run read_input load_classlist make_rule make_initial_groups
       apply_rules_list check_other mean_text).

(** Everything [prepare] did when it returns. *)
Lemma prepare_inv input p :
  prepare input = Ok p →
  ∃ dek classlist s0 rest gsz descs user_rules groups course it,
    read_input input = Ok dek ∧
    dek_classlist dek = Some classlist ∧
    load_classlist classlist (dek_student_identifier dek) = Ok (s0 :: rest) ∧
    dek_group_size dek = Some gsz ∧
    dek_rules dek = Some descs ∧
    comprehension
      (λ r, make_rule r (mkCourse (s0 :: rest) gsz (dek_uneven_size dek)))
      descs = Ok user_rules ∧
    make_initial_groups (mkCourse (s0 :: rest) gsz (dek_uneven_size dek))
                        (py_filter is_Balance user_rules)
      = Ok (groups, course, it) ∧
    p = mkPrepared (identifier s0) course
          (Distribute (identifier s0) phantom_marker :: user_rules) groups it.
Proof.
  unfold prepare. intros H.
  bind_inv H dek Hdek. bind_inv H classlist Hcl. bind_inv H roster Hro.
  bind_inv H s0 Hs0. bind_inv H gsz Hgsz. bind_inv H descs Hdescs.
  bind_inv H user_rules Hur. bind_inv H res Hres.
  destruct res as [[groups course] it]. injection H as <-.
  apply first_Ok in Hs0 as [rest ->].
  apply getitem_Ok in Hcl, Hgsz, Hdescs.
  exists dek, classlist, s0, rest, gsz, descs, user_rules, groups, course, it.
  done.
Qed.

Lemma enforce_inv p e :
  enforce p = Ok e →
  ∃ suceeded groups studs,
    apply_rules_list (p_rules p) (p_groups p) (course_students (p_course p))
      = Ok (suceeded, groups, studs) ∧
    e = mkEnforced (p_identifier p)
          (set_course_students (p_course p) studs) (p_rules p)
          (sort_by_key group_number groups) suceeded (p_balance_rules p).
Proof.
  unfold enforce. intros H. bind_inv H res Hres.
  destruct res as [[suceeded groups] studs]. injection H as <-. eauto.
Qed.

Lemma run_enforcement_pass input :
  run input = enforcement_pass input ≫= finish.
Proof.
  unfold run, enforcement_pass.
  destruct (prepare input) as [p|]; simpl; [|done].
  by destruct (enforce p).
Qed.

(** The rule at position 0 after the enforcement pass. *)
Lemma enforcement_pass_rules input e :
  enforcement_pass input = Ok e →
  ∃ user_rules,
    e_rules e = Distribute (e_identifier e) phantom_marker :: user_rules.
Proof.
  unfold enforcement_pass. intros H. bind_inv H p Hp.
  apply prepare_inv in Hp
    as (dek & cl & s0 & rest & gsz & descs & ur & gs & c & it & Hp).
  destruct Hp as (_ & _ & _ & _ & _ & _ & _ & ->).
  apply enforce_inv in H as (b & gs' & st & _ & ->). simpl. eauto.
Qed.

(** [finish] past the test of line 79. *)
Lemma finish_inv e out :
  finish e = Ok out →
  ∃ r0,
    first (e_rules e) = Ok r0 ∧
    failures (e_course e) (e_groups e) r0 = 0 ∧
    out_groups out = map (strip_group (e_identifier e)) (e_groups e) ∧
    out_course out =
      set_course_students (e_course e)
        (real_students (e_identifier e) (course_students (e_course e))) ∧
    out_suceeded out = e_suceeded e ∧
    out_rules out = e_rules e ∧
    out_rule_report out =
      map (λ r, (r, failures (out_course out) (out_groups out) r))
          (tail (e_rules e)) ∧
    out_summaries out =
      (group_summaries check_other mean_text (out_course out) (e_rules e)
         (out_groups out) (e_balance_rules e)).1.
Proof.
  unfold finish. intros H. bind_inv H r0 Hr0.
  destruct (Z.eqb_spec (failures (e_course e) (e_groups e) r0) 0) as [Hz|Hz];
    simpl in H; [|discriminate].
  bind_inv H groups Hg. bind_inv H studs Hs. injection H as <-. simpl.
  apply strip_groups_Ok in Hg as ->. apply without_phantoms_Ok in Hs as ->.
  exists r0. done.
Qed.

Lemma finish_uneven e r0 :
  first (e_rules e) = Ok r0 →
  failures (e_course e) (e_groups e) r0 ≠ 0 →
  finish e = Raise UnevenGroups.
Proof.
  unfold finish. intros -> Hn. simpl.
  by destruct (Z.eqb_spec (failures (e_course e) (e_groups e) r0) 0).
Qed.

Lemma finish_UnevenGroups e r0 :
  first (e_rules e) = Ok r0 →
  finish e = Raise UnevenGroups →
  failures (e_course e) (e_groups e) r0 ≠ 0.
Proof.
  unfold finish. intros -> H. simpl in H.
  destruct (Z.eqb_spec (failures (e_course e) (e_groups e) r0) 0) as [Hz|Hz];
    simpl in H; [|done].
  apply bind_Raise in H as [H|(groups & Hg & H)].
  - exfalso. clear -H. induction (e_groups e) as [|g gs IH]; simpl in H;
      [discriminate|].
    apply bind_Raise in H as [H|(l & _ & H)].
    + induction (students g) as [|s l IHl]; simpl in H; [discriminate|].
      apply bind_Raise in H as [H|(k & _ & H)].
      * unfold not_phantom in H. destruct (data s !! e_identifier e);
          discriminate.
      * apply bind_Raise in H as [H|(r & _ & H)]; [auto | discriminate].
    + apply bind_Raise in H as [H|(r & _ & H)]; [auto | discriminate].
  - exfalso. apply bind_Raise in H as [H|(st & _ & H)]; [|discriminate].
    clear -H.
    induction (course_students (e_course e)) as [|s l IHl]; simpl in H;
      [discriminate|].
    apply bind_Raise in H as [H|(k & _ & H)].
    + unfold not_phantom in H. destruct (data s !! e_identifier e);
        discriminate.
    + apply bind_Raise in H as [H|(r & _ & H)]; [auto | discriminate].
Qed.

(** The sum of line 77 as a length. *)
Lemma failures_filter_length c groups r :
  failures c groups r
  = Z.of_nat (length (List.filter (λ g, negb (check c r g)) groups)).
Proof.
  unfold failures, py_sum.
  by rewrite (fold_left_add_failing (λ g, check c r g)).
Qed.

(** C5: [failures(r)] is the number of groups of the list on which
    [r.check] is false. *)
Theorem failures_counts_failing_groups (c : Course) (groups : list Group)
    (r : Rule) :
  failures c groups r
  = Z.of_nat (length (List.filter (λ g, negb (check c r g)) groups)).
Proof.
  unfold failures, py_sum.
  by rewrite (fold_left_add_failing (λ g, check c r g)).
Qed.

Lemma failures_zero_iff c groups r :
  failures c groups r = 0 ↔ Forall (λ g, check c r g = true) groups.
Proof.
  rewrite failures_filter_length.
  rewrite <- (filter_negb_nil_Forall (λ g, check c r g)).
  destruct (List.filter _ groups); simpl; split; (done || lia).
Qed.

(** C1, as the code has it: once the enforcement pass is complete, the
    rule at position 0 is the phantom-distribution rule, and [run] raises
    [UnevenGroups] exactly when that rule has a failing group.  A normal
    return therefore means that no group fails it; the success flag that
    comes back is the one [apply_rules_list] returned at line 71, which
    the test of line 79 neither reads nor changes. *)
Theorem mandatory_rule_decides_run (input : string) (e : Enforced) :
  enforcement_pass input = Ok e →
  let r0 := Distribute (e_identifier e) phantom_marker in
  let n := failures (e_course e) (e_groups e) r0 in
  first (e_rules e) = Ok r0 ∧
  (run input = Raise UnevenGroups ↔ n ≠ 0) ∧
  (∀ out, run input = Ok out →
     n = 0 ∧
     Forall (λ g, check (e_course e) r0 g = true) (e_groups e) ∧
     out_suceeded out = e_suceeded e).
Proof.
  intros He r0 n.
  destruct (enforcement_pass_rules _ _ He) as [ur Hr].
  assert (Hfirst : first (e_rules e) = Ok r0) by (by rewrite Hr).
  assert (Hrun : run input = finish e)
    by (by rewrite run_enforcement_pass, He).
  split; [done|]. split.
  - rewrite Hrun. split.
    + by apply finish_UnevenGroups.
    + by apply finish_uneven.
  - intros out Ho. rewrite Hrun in Ho.
    apply finish_inv in Ho as (r0' & Hr0' & Hz & _ & _ & Hflag & _).
    rewrite Hfirst in Hr0'. injection Hr0' as <-.
    split; [done|]. split; [|done].
    by apply failures_zero_iff.
Qed.

(** C2, as the code has it: when the rule at position 0 still has failing
    groups after the complete enforcement pass, [run] raises [UnevenGroups]
    at the test that follows the pass, and the caller receives no groups. *)
Theorem ungroupable_raises_after_enforcement (input : string) (e : Enforced) :
  enforcement_pass input = Ok e →
  failures (e_course e) (e_groups e)
           (Distribute (e_identifier e) phantom_marker) ≠ 0 →
  run input = Raise UnevenGroups ∧ returned_partition (run input) = None.
Proof.
  intros He Hn.
  destruct (enforcement_pass_rules _ _ He) as [ur Hr].
  assert (run input = Raise UnevenGroups) as ->; [|done].
  rewrite run_enforcement_pass, He. simpl.
  apply finish_uneven with (r0 := Distribute (e_identifier e) phantom_marker);
    [by rewrite Hr | done].
Qed.

(** C3: on a normal return, the returned groups are the groups left by the
    rule engine with their phantoms filtered out, the course's student
    list is filtered the same way, and neither contains a student whose
    identifier attribute is the phantom marker. *)
Theorem phantoms_removed (input : string) (out : Out) :
  run input = Ok out →
  ∃ e,
    enforcement_pass input = Ok e ∧
    out_groups out = map (strip_group (e_identifier e)) (e_groups e) ∧
    course_students (out_course out)
      = real_students (e_identifier e) (course_students (e_course e)) ∧
    Forall (λ g, Forall (λ s, is_phantom (e_identifier e) s = false)
                        (students g))
           (out_groups out) ∧
    Forall (λ s, is_phantom (e_identifier e) s = false)
           (course_students (out_course out)).
Proof.
  rewrite run_enforcement_pass. intros H. bind_inv H e He.
  exists e. split; [done|].
  apply finish_inv in H as (r0 & _ & _ & Hg & Hc & _).
  rewrite Hg, Hc. simpl. split; [done|]. split; [done|]. split.
  - apply List.Forall_forall. intros g Hin.
    apply List.in_map_iff in Hin as (g0 & <- & _). simpl.
    apply real_students_no_phantom.
  - apply real_students_no_phantom.
Qed.

(** C4: the rule list [prepare] hands to [apply_rules_list] is the
    Distribute rule over the identifier attribute of [students[0]] with
    target ['phantom'], followed by the rules made from the descriptors of
    the deck, one per descriptor and in their order. *)
Theorem phantom_rule_has_highest_priority (input : string) (p : Prepared) :
  prepare input = Ok p →
  ∃ dek descs course0 user_rules,
    read_input input = Ok dek ∧
    dek_rules dek = Some descs ∧
    Forall2 (λ d r, make_rule d course0 = Ok r) descs user_rules ∧
    p_rules p = Distribute (p_identifier p) phantom_marker :: user_rules ∧
    p_rules p !! 0%nat = Some (Distribute (p_identifier p) phantom_marker) ∧
    (∀ i, p_rules p !! S i = user_rules !! i) ∧
    run input =
      ('(suceeded, groups, studs) ←
         apply_rules_list
           (Distribute (p_identifier p) phantom_marker :: user_rules)
           (p_groups p) (course_students (p_course p));
       finish (mkEnforced (p_identifier p)
                 (set_course_students (p_course p) studs)
                 (Distribute (p_identifier p) phantom_marker :: user_rules)
                 (sort_by_key group_number groups) suceeded
                 (p_balance_rules p))).
Proof.
  intros Hp.
  destruct (prepare_inv _ _ Hp)
    as (dek & cl & s0 & rest & gsz & descs & ur & gs & c & it & Hd & _ & _
        & _ & Hdescs & Hur & _ & ->).
  exists dek, descs, (mkCourse (s0 :: rest) gsz (dek_uneven_size dek)), ur.
  simpl. split; [done|]. split; [done|].
  split; [by apply comprehension_Forall2|].
  split; [done|]. split; [done|]. split; [done|].
  unfold run. rewrite Hp. simpl. unfold enforce. simpl.
  destruct (apply_rules_list _ _ _) as [[[b g'] st]|]; done.
Qed.

End ControllerFacts.

(** ** Membership through the pipeline *)

Lemma real_students_Permutation ident l l' :
  l ≡ₚ l' → real_students ident l ≡ₚ real_students ident l'.
Proof.
  unfold real_students. induction 1 as [|x l l' _ IH|x y l|l l' l'' _ IH1 _ IH2];
    simpl.
  - done.
  - destruct (negb _); [by constructor | done].
  - destruct (negb (is_phantom ident x)), (negb (is_phantom ident y));
      (done || apply Permutation_swap).
  - by etrans.
Qed.

Lemma real_students_app ident l l' :
  real_students ident (l ++ l') = real_students ident l ++ real_students ident l'.
Proof. apply List.filter_app. Qed.

Lemma members_strip ident groups :
  members (map (strip_group ident) groups) = real_students ident (members groups).
Proof.
  unfold members. induction groups as [|g gs IH]; simpl; [done|].
  by rewrite real_students_app, IH.
Qed.

Lemma members_Permutation groups groups' :
  groups ≡ₚ groups' → members groups ≡ₚ members groups'.
Proof.
  unfold members. induction 1 as [|g l l' _ IH|g h l|l l' l'' _ IH1 _ IH2];
    simpl.
  - done.
  - by rewrite IH.
  - rewrite !(assoc_L (++)). f_equiv. apply Permutation_app_comm.
  - by etrans.
Qed.

Lemma members_length groups :
  length (members groups) = sum_list (map (λ g, length (students g)) groups).
Proof.
  unfold members. induction groups as [|g gs IH]; simpl; [done|].
  by rewrite length_app, IH.
Qed.

(** In a partition without repetition, a member belongs to exactly one
    group. *)
Lemma NoDup_members_one_group (s : Student) groups :
  NoDup (members groups) →
  s ∈ members groups →
  length (List.filter (λ g, bool_decide (s ∈ students g)) groups) = 1%nat.
Proof.
  unfold members. induction groups as [|g gs IH]; simpl; intros Hnd Hin.
  - by apply elem_of_nil in Hin.
  - apply NoDup_app in Hnd as (_ & Hdisj & Hnd).
    destruct (decide (s ∈ students g)) as [Hs|Hs].
    + rewrite (bool_decide_eq_true_2 _ Hs). simpl. f_equal.
      assert (Hnone : s ∉ concat (map students gs)) by auto.
      clear -Hnone. induction gs as [|h gs IH]; simpl in *; [done|].
      rewrite elem_of_app in Hnone.
      rewrite bool_decide_eq_false_2 by tauto. apply IH. tauto.
    + rewrite (bool_decide_eq_false_2 _ Hs).
      apply elem_of_app in Hin as [Hin|Hin]; [done|]. by apply IH.
Qed.

Lemma real_students_NoDup ident l : NoDup l → NoDup (real_students ident l).
Proof.
  unfold real_students. induction 1 as [|x l Hx _ IH]; simpl; [constructor|].
  destruct (negb _); [|done]. constructor; [|done].
  rewrite list_elem_of_In, List.filter_In, <- list_elem_of_In. tauto.
Qed.

(** ** What the collaborators must guarantee *)

Section Contracts.

Context {RuleDesc : Type}.
Variable read_input : string → result (Deck RuleDesc).
Variable load_classlist : string → option string → result (list Student).
Variable make_rule : RuleDesc → Course → result Rule.
Variable make_initial_groups :
  Course → filter_obj Rule → result (list Group * Course * filter_obj Rule).
Variable apply_rules_list :
  list Rule → list Group → list Student →
  result (bool * list Group * list Student).
Variable check_other : Course → Rule → Group → bool.
Variable mean_text : Group → Rule → string.

Local Abbreviation prepare :=
  (prepare read_input load_classlist make_rule make_initial_groups).
Local Abbreviation check := (check check_other).
Local Abbreviation failures := (failures check_other).
Local Abbreviation enforcement_pass :=
  (enforcement_pass read_input load_classlist make_rule make_initial_groups
                    apply_rules_list).
Local Abbreviation run :=
  (run read_input load_classlist make_rule make_initial_groups
       apply_rules_list check_other mean_text).

Local Abbreviation partitions_the_roster :=
  (partitions_the_roster make_initial_groups).
Local Abbreviation moves_students_only :=
  (moves_students_only apply_rules_list).
Local Abbreviation drains_balance_rules :=
  (drains_balance_rules make_initial_groups).

(** C8: when the partitioner partitions the padded roster and the engine
    only moves students, a normal return hands back groups whose members
    are, up to order, the non-phantom students of the loaded roster: their
    sizes add up to the number of those students, the course's final list
    holds the same students, and when the roster has no repeated student
    each of them is in exactly one group, once. *)
Theorem returned_groups_partition_roster (input : string) (out : Out) :
  partitions_the_roster →
  moves_students_only →
  run input = Ok out →
  ∃ dek classlist s0 rest,
    read_input input = Ok dek ∧
    dek_classlist dek = Some classlist ∧
    load_classlist classlist (dek_student_identifier dek) = Ok (s0 :: rest) ∧
    let roster := real_students (identifier s0) (s0 :: rest) in
    members (out_groups out) ≡ₚ roster ∧
    course_students (out_course out) ≡ₚ roster ∧
    sum_list (map (λ g, length (students g)) (out_groups out)) = length roster ∧
    (NoDup (s0 :: rest) →
     NoDup (members (out_groups out)) ∧
     ∀ s, s ∈ roster →
       length (List.filter (λ g, bool_decide (s ∈ students g))
                           (out_groups out)) = 1%nat).
Proof.
  intros Hpart Heng Hrun.
  rewrite run_enforcement_pass in Hrun. bind_inv Hrun e He.
  unfold enforcement_pass in He. bind_inv He p Hp.
  apply prepare_inv in Hp
    as (dek & cl & s0 & rest & gsz & descs & ur & gs & c & it & Hd & Hcl & Hro
        & _ & _ & _ & Hmk & ->).
  apply enforce_inv in He as (b & gs' & st & Happ & ->). simpl in Happ.
  apply finish_inv in Hrun as (r0 & _ & _ & Hg & Hc & _). simpl in Hg, Hc.
  destruct (Hpart (mkCourse (s0 :: rest) gsz (dek_uneven_size dek)) _ _ _ _
              s0 rest eq_refl Hmk) as [Hmem Hreal].
  simpl in Hreal.
  destruct (Heng _ _ _ _ _ _ Happ) as [Hmem' Hst].
  exists dek, cl, s0, rest. split; [done|]. split; [done|]. split; [done|].
  assert (Hgroups : members (out_groups out)
                    ≡ₚ real_students (identifier s0) (s0 :: rest)).
  { rewrite Hg, members_strip, <- Hreal.
    apply real_students_Permutation.
    rewrite (members_Permutation _ _ (sort_by_key_Permutation _ _)).
    by rewrite Hmem'. }
  cbv zeta. split; [done|]. split; [|split].
  - rewrite Hc. simpl. rewrite <- Hreal.
    by apply real_students_Permutation.
  - by rewrite <- members_length, Hgroups.
  - intros Hnd.
    assert (Hnd' : NoDup (members (out_groups out))).
    { rewrite Hgroups. by apply real_students_NoDup. }
    split; [done|]. intros s Hs.
    apply NoDup_members_one_group; [done|]. by rewrite Hgroups.
Qed.

Lemma group_summaries_cons c rules g gs it :
  group_summaries check_other mean_text c rules (g :: gs) it
  = let rest := group_summaries check_other mean_text c rules gs (drain it).2 in
    ((group_number g,
      map (λ r, MeanItem (rule_attribute r) (mean_text g r)) (drain it).1 ++
      map FailedItem (List.filter (λ r, negb (check c r g)) rules))
     :: rest.1, rest.2).
Proof.
  cbn [group_summaries]. destruct (drain it) as [brs it1]. cbn [fst snd].
  by destruct (group_summaries _ _ _ _ _ _).
Qed.

Lemma group_summaries_exhausted c rules groups it :
  exhausted it →
  Forall (λ x, Forall (λ i, is_MeanItem i = false) x.2)
         (group_summaries check_other mean_text c rules groups it).1.
Proof.
  revert it. induction groups as [|g gs IH]; intros it Hex; [by constructor|].
  rewrite group_summaries_cons. cbn [fst snd].
  constructor; [|apply IH, drain_exhausted]. cbn [snd].
  rewrite (drain_of_exhausted _ Hex). cbn [map app].
  apply List.Forall_forall. intros i Hi.
  apply List.in_map_iff in Hi as (r & <- & _). done.
Qed.

Lemma group_summaries_numbers c rules groups it :
  map fst (group_summaries check_other mean_text c rules groups it).1
  = map group_number groups.
Proof.
  revert it. induction groups as [|g gs IH]; intros it; [done|].
  rewrite group_summaries_cons. cbn [fst snd map]. by rewrite IH.
Qed.

(** C10: [balance_rules] is the iterator [filter] made over the user
    rules; when [make_initial_groups] has run through it, the loop of the
    group summaries finds it exhausted: there is one summary per returned
    group, and none holds a Balance mean item, whatever rules the deck
    has. *)
Theorem group_summaries_have_no_balance_mean (input : string) (out : Out) :
  drains_balance_rules →
  run input = Ok out →
  map fst (out_summaries out) = map group_number (out_groups out) ∧
  Forall (λ x, Forall (λ i, is_MeanItem i = false) x.2) (out_summaries out).
Proof.
  intros Hdrain Hrun.
  rewrite run_enforcement_pass in Hrun. bind_inv Hrun e He.
  unfold enforcement_pass in He. bind_inv He p Hp.
  apply prepare_inv in Hp
    as (dek & cl & s0 & rest & gsz & descs & ur & gs & c & it & _ & _ & _
        & _ & _ & _ & Hmk & ->).
  apply enforce_inv in He as (b & gs' & st & _ & ->).
  apply finish_inv in Hrun as (r0 & _ & _ & _ & _ & _ & _ & _ & Hsum).
  simpl in Hsum. rewrite Hsum. split.
  - apply group_summaries_numbers.
  - apply group_summaries_exhausted. eauto.
Qed.

End Contracts.

(** ** [check] between line 79 and the report *)

Section CheckFacts.

Context {RuleDesc : Type}.
Variable read_input : string → result (Deck RuleDesc).
Variable load_classlist : string → option string → result (list Student).
Variable make_rule : RuleDesc → Course → result Rule.
Variable make_initial_groups :
  Course → filter_obj Rule → result (list Group * Course * filter_obj Rule).
Variable apply_rules_list :
  list Rule → list Group → list Student →
  result (bool * list Group * list Student).
Variable check_other : Course → Rule → Group → bool.
Variable mean_text : Group → Rule → string.

Local Abbreviation check := (check check_other).
Local Abbreviation failures := (failures check_other).
Local Abbreviation enforcement_pass :=
  (enforcement_pass read_input load_classlist make_rule make_initial_groups
                    apply_rules_list).
Local Abbreviation run :=
  (run read_input load_classlist make_rule make_initial_groups
       apply_rules_list check_other mean_text).









End CheckFacts.

(** ** The initial partitioner *)




Lemma deal_Permutation {A} (l : list A) (groups : list (list A)) :
  groups ≠ [] →
  concat (Partitioner.deal l groups) ≡ₚ concat groups ++ l.
Proof.
  revert groups. induction l as [|x l IH]; intros groups Hne; simpl.
  - by rewrite app_nil_r.
  - destruct groups as [|g rest]; [done|].
    rewrite IH by (by destruct rest).
    rewrite concat_app. simpl. rewrite app_nil_r.
    rewrite (Permutation_app_comm (concat rest) (g ++ [x])).
    rewrite <- !(assoc_L (++)). f_equiv. simpl.
    apply Permutation_middle.
Qed.

Lemma number_groups_students n ms :
  map students (Partitioner.number_groups n ms) = ms.
Proof.
  revert n. induction ms as [|m ms IH]; intros n; simpl; [done|].
  by rewrite IH.
Qed.

Lemma number_groups_numbers n ms :
  map group_number (Partitioner.number_groups n ms)
  = seqZ n (Z.of_nat (length ms)).
Proof.
  revert n. induction ms as [|m ms IH]; intros n; [done|].
  cbn [Partitioner.number_groups map length]. rewrite IH.
  rewrite Nat2Z.inj_succ, (seqZ_cons n) by lia.
  do 2 f_equal; lia.
Qed.

Lemma seeding_Permutation (brs : list Rule) (l : list Student) :
  fold_left (λ l r, sort_by_key (Partitioner.get_strength r) l) brs l ≡ₚ l.
Proof.
  revert l. induction brs as [|r brs IH]; intros l; simpl; [done|].
  by rewrite IH, sort_by_key_Permutation.
Qed.

Lemma ceil_div_bounds (n d : Z) :
  0 < d → 0 ≤ n →
  0 ≤ Partitioner.ceil_div n d ∧
  0 ≤ Partitioner.ceil_div n d * d - n < d ∧
  (0 < n → 1 ≤ Partitioner.ceil_div n d) ∧
  (n mod d = 0 → Partitioner.ceil_div n d * d = n).
Proof.
  intros Hd Hn. unfold Partitioner.ceil_div.
  pose proof (Z.div_mod (n + d - 1) d ltac:(lia)) as Hdm.
  pose proof (Z.mod_pos_bound (n + d - 1) d Hd) as Hr.
  set (q := (n + d - 1) / d) in *. set (r := (n + d - 1) mod d) in *.
  assert (0 ≤ q) by nia.
  split; [done|]. split; [nia|]. split; [nia|].
  intros Hmod. pose proof (Z.div_mod n d ltac:(lia)) as Hn'.
  rewrite Hmod in Hn'. set (k := n / d) in *.
  assert (d * (q - k) = d - 1 - r) by lia.
  assert (q - k < 1) by nia. assert (0 ≤ q - k) by nia.
  assert (q = k) by lia. subst q. lia.
Qed.



(** The group count of both policies, for a group size between 1 and the
    roster size. *)
Lemma group_count_bounds c :
  0 < group_size c →
  group_size c ≤ Z.of_nat (length (course_students c)) →
  1 ≤ Partitioner.group_count c ∧
  (Partitioner.rounds_down c = false →
   0 ≤ Partitioner.phantom_count c < group_size c) ∧
  (Partitioner.rounds_down c = true → Partitioner.phantom_count c ≤ 0) ∧
  (Z.of_nat (length (course_students c)) mod group_size c = 0 →
   Partitioner.phantom_count c = 0).
Proof.
  intros Hgs Hle.
  unfold Partitioner.phantom_count, Partitioner.group_count.
  set (n := Z.of_nat (length (course_students c))) in *.
  destruct (Partitioner.rounds_down c).
  - pose proof (Z.div_mod n (group_size c) ltac:(lia)) as Hdm.
    pose proof (Z.mod_pos_bound n (group_size c) Hgs) as Hr.
    split; [nia|]. split; [done|]. split; [lia|]. lia.
  - destruct (ceil_div_bounds n (group_size c) Hgs ltac:(lia))
      as (_ & Hb & Hpos & Hmod).
    split; [lia|]. split; [done|]. split; [done|].
    intros H0. rewrite (Hmod H0). lia.
Qed.



Lemma make_initial_groups_total c it :
  0 < group_size c →
  group_size c ≤ Z.of_nat (length (course_students c)) →
  Partitioner.make_initial_groups c it
  = Ok (Partitioner.number_groups 1
          (Partitioner.deal (seeded_roster c it)
             (replicate (Z.to_nat (Partitioner.group_count c)) [])),
        set_course_students c (Partitioner.padded_roster c),
        (drain it).2).
Proof.
  intros Hgs Hle. unfold Partitioner.make_initial_groups.
  destruct (Z.leb_spec (group_size c) 0); [lia|].
  destruct (Z.ltb_spec (Z.of_nat (length (course_students c)))
                       (group_size c)); [lia|].
  done.
Qed.

Lemma make_initial_groups_Ok c it groups c' it' :
  Partitioner.make_initial_groups c it = Ok (groups, c', it') →
  0 < group_size c ∧ group_size c ≤ Z.of_nat (length (course_students c)).
Proof.
  unfold Partitioner.make_initial_groups.
  destruct (Z.leb_spec (group_size c) 0); [done|].
  by destruct (Z.ltb_spec (Z.of_nat (length (course_students c)))
                          (group_size c)).
Qed.

Lemma make_initial_groups_config_error c it :
  group_size c ≤ 0 ∨
  Z.of_nat (length (course_students c)) < group_size c ∨
  Z.of_nat (length (Partitioner.padded_roster c)) < group_size c →
  Partitioner.make_initial_groups c it = Raise ConfigurationError.
Proof.
  intros Hbad. unfold Partitioner.make_initial_groups.
  destruct (Z.leb_spec (group_size c) 0); [done|].
  destruct (Z.ltb_spec (Z.of_nat (length (course_students c)))
                       (group_size c)); [done|].
  destruct Hbad as [?|[?|Hpad]]; [lia | lia |].
  unfold Partitioner.padded_roster in Hpad. rewrite length_app in Hpad. lia.
Qed.

Lemma phantom_is_phantom ident : is_phantom ident (Partitioner.phantom ident) = true.
Proof.
  unfold is_phantom, Partitioner.phantom. simpl.
  apply bool_decide_eq_true_2. apply lookup_singleton_eq.
Qed.

Lemma real_students_replicate_phantom ident k :
  real_students ident (replicate k (Partitioner.phantom ident)) = [].
Proof.
  induction k as [|k IH]; [done|].
  unfold real_students in *. simpl. by rewrite phantom_is_phantom.
Qed.

Lemma initial_groups_members c it :
  0 < group_size c →
  group_size c ≤ Z.of_nat (length (course_students c)) →
  members (Partitioner.number_groups 1
             (Partitioner.deal (seeded_roster c it)
                (replicate (Z.to_nat (Partitioner.group_count c)) [])))
  ≡ₚ Partitioner.padded_roster c.
Proof.
  intros Hgs Hle. unfold members. rewrite number_groups_students.
  destruct (group_count_bounds c Hgs Hle) as (Hpos & _).
  rewrite deal_Permutation.
  - assert (Hnil : ∀ k, concat (replicate k (@nil Student)) = [])
      by (induction k; simpl; auto).
    rewrite Hnil. simpl. apply seeding_Permutation.
  - destruct (Z.to_nat (Partitioner.group_count c)) eqn:Hk; [lia | done].
Qed.

(** The partitioner of the specification meets what [run] needs of it. *)
Lemma partitioner_partitions_the_roster :
  partitions_the_roster Partitioner.make_initial_groups.
Proof.
  intros c it groups c' it' s0 rest Hc Hmk.
  destruct (make_initial_groups_Ok _ _ _ _ _ Hmk) as [Hgs Hle].
  rewrite (make_initial_groups_total _ _ Hgs Hle) in Hmk.
  injection Hmk as <- <- <-. simpl. split.
  - by apply initial_groups_members.
  - unfold Partitioner.padded_roster. rewrite Hc.
    by rewrite real_students_app, real_students_replicate_phantom, app_nil_r.
Qed.

Lemma partitioner_drains_balance_rules :
  drains_balance_rules Partitioner.make_initial_groups.
Proof.
  intros c it groups c' it' Hmk.
  destruct (make_initial_groups_Ok _ _ _ _ _ Hmk) as [Hgs Hle].
  rewrite (make_initial_groups_total _ _ Hgs Hle) in Hmk.
  injection Hmk as _ _ <-. apply drain_exhausted.
Qed.

Lemma engine_id_moves_students_only :
  moves_students_only Engine.apply_rules_list_id.
Proof. intros rules groups studs b groups' studs' [= _ <- <-]. done. Qed.

Lemma engine_rev_moves_students_only :
  moves_students_only Engine.apply_rules_list_rev.
Proof.
  intros rules groups studs b groups' studs' [= _ <- <-]. split.
  - apply members_Permutation, reverse_Permutation.
  - apply reverse_Permutation.
Qed.



(** C6: a group size that is not positive, or that exceeds the size of the
    roster, padded or not, makes the partitioner raise the configuration
    error without building any group; [run] then ends with that error
    whatever the rule engine is, the engine is never reached, and no
    partition comes back. *)
Theorem configuration_error_is_immediate (c : Course) (it : filter_obj Rule) :
  group_size c ≤ 0 ∨
  Z.of_nat (length (course_students c)) < group_size c ∨
  Z.of_nat (length (Partitioner.padded_roster c)) < group_size c →
  Partitioner.make_initial_groups c it = Raise ConfigurationError ∧
  ∀ (RuleDesc : Type) (read_input : string → result (Deck RuleDesc))
    load_classlist (make_rule : RuleDesc → Course → result Rule)
    apply_rules_list check_other mean_text input dek classlist descs user_rules,
    read_input input = Ok dek →
    dek_classlist dek = Some classlist →
    load_classlist classlist (dek_student_identifier dek)
      = Ok (course_students c) →
    course_students c ≠ [] →
    dek_group_size dek = Some (group_size c) →
    dek_uneven_size dek = uneven_size c →
    dek_rules dek = Some descs →
    comprehension (λ r, make_rule r c) descs = Ok user_rules →
    run read_input load_classlist make_rule Partitioner.make_initial_groups
        apply_rules_list check_other mean_text input
      = Raise ConfigurationError ∧
    returned_partition
      (run read_input load_classlist make_rule Partitioner.make_initial_groups
           apply_rules_list check_other mean_text input) = None.
Proof.
  intros Hbad. split; [by apply make_initial_groups_config_error|].
  intros RuleDesc read_input load_classlist make_rule apply_rules_list
    check_other mean_text input dek classlist descs user_rules
    Hdek Hcl Hload Hne Hgs Hun Hdescs Hrules.
  pose proof (λ it', make_initial_groups_config_error c it' Hbad) as Hmk.
  clear Hbad.
  assert (run read_input load_classlist make_rule
              Partitioner.make_initial_groups apply_rules_list check_other
              mean_text input = Raise ConfigurationError) as ->; [|done].
  unfold run, prepare. rewrite Hdek. simpl. rewrite Hcl. simpl.
  rewrite Hload. simpl.
  destruct (course_students c) as [|s0 rest] eqn:Hroster; [done|]. simpl.
  rewrite Hgs. simpl. rewrite Hdescs, Hun. simpl.
  replace (mkCourse (s0 :: rest) (group_size c) (uneven_size c)) with c
    by (destruct c; simpl in *; by subst).
  rewrite Hrules. simpl.
  by rewrite Hmk.
Qed.

(** ** The statements on concrete inputs *)

Lemma mandatory_rule_decides_run_witness :
  ∃ e,
    enforcement_pass Example.read_input Example.load_classlist
      Example.make_rule Partitioner.make_initial_groups
      Engine.apply_rules_list_rev "three_by_two" = Ok e ∧
    (Example.run_with Engine.apply_rules_list_rev "three_by_two"
       = Raise UnevenGroups
     ↔ failures Example.check_other (e_course e) (e_groups e)
         (Distribute (e_identifier e) phantom_marker) ≠ 0) ∧
    ∀ out,
      Example.run_with Engine.apply_rules_list_rev "three_by_two" = Ok out →
      out_suceeded out = false.
Proof.
  eexists. split; [vm_compute; reflexivity|].
  destruct (mandatory_rule_decides_run Example.read_input
              Example.load_classlist Example.make_rule
              Partitioner.make_initial_groups Engine.apply_rules_list_rev
              Example.check_other Example.mean_text "three_by_two" _
              ltac:(vm_compute; reflexivity))
    as (_ & Hiff & Hok).
  split; [exact Hiff|].
  intros out Ho. destruct (Hok out Ho) as (_ & _ & Hflag). exact Hflag.
Defined.

(** Three students in groups of two, with an engine that reports a rule
    it could not satisfy: no group fails the rule at position 0, [run]
    gets past line 80, and the flag it goes on to return is false. *)
Lemma success_flag_is_the_engines :
  ¬ success_is_rule_zero Example.read_input Example.load_classlist
      Example.make_rule Partitioner.make_initial_groups
      Engine.apply_rules_list_rev Example.check_other Example.mean_text
      "three_by_two".
Proof.
  intros H.
  assert (∃ e,
    enforcement_pass Example.read_input Example.load_classlist
      Example.make_rule Partitioner.make_initial_groups
      Engine.apply_rules_list_rev "three_by_two" = Ok e ∧
    failures Example.check_other (e_course e) (e_groups e)
      (Distribute (e_identifier e) phantom_marker) = 0) as (e & He & Hz).
  { eexists. split; vm_compute; reflexivity. }
  destruct (proj2 (H e He) Hz) as (out & Ho & Hflag).
  vm_compute in Ho. injection Ho as <-. discriminate Hflag.
Qed.

Lemma ungroupable_raises_after_enforcement_witness :
  Example.run_with Engine.apply_rules_list_id "seven_by_five"
    = Raise UnevenGroups ∧
  returned_partition
    (Example.run_with Engine.apply_rules_list_id "seven_by_five") = None.
Proof.
  eapply (ungroupable_raises_after_enforcement Example.read_input
            Example.load_classlist Example.make_rule
            Partitioner.make_initial_groups Engine.apply_rules_list_id
            Example.check_other Example.mean_text "seven_by_five").
  - vm_compute; reflexivity.
  - vm_compute. discriminate.
Defined.

(** Seven students in groups of five: three phantoms for two groups, so
    the rule at position 0 fails whatever the engine does, and the caller
    of [run] gets [UnevenGroups] and no groups. *)
Lemma ungroupable_run_returns_no_partition :
  ¬ partition_returned_when_ungroupable Example.read_input
      Example.load_classlist Example.make_rule Partitioner.make_initial_groups
      Engine.apply_rules_list_id Example.check_other Example.mean_text
      "seven_by_five".
Proof.
  intros H.
  assert (∃ e,
    enforcement_pass Example.read_input Example.load_classlist
      Example.make_rule Partitioner.make_initial_groups
      Engine.apply_rules_list_id "seven_by_five" = Ok e ∧
    failures Example.check_other (e_course e) (e_groups e)
      (Distribute (e_identifier e) phantom_marker) ≠ 0) as (e & He & Hn).
  { eexists. split; [vm_compute; reflexivity | vm_compute; discriminate]. }
  destruct (H e He Hn) as [groups Hg]. vm_compute in Hg. discriminate.
Qed.

Lemma phantoms_removed_witness :
  ∃ out,
    Example.run_with Engine.apply_rules_list_rev "three_by_two" = Ok out ∧
    Forall (λ g, Forall (λ s, is_phantom "ID" s = false) (students g))
           (out_groups out) ∧
    Forall (λ s, is_phantom "ID" s = false) (course_students (out_course out)).
Proof.
  eexists. split; [vm_compute; reflexivity|].
  destruct (phantoms_removed Example.read_input Example.load_classlist
              Example.make_rule Partitioner.make_initial_groups
              Engine.apply_rules_list_rev Example.check_other
              Example.mean_text "three_by_two" _ ltac:(vm_compute; reflexivity))
    as (e & He & _ & _ & Hg & Hc).
  vm_compute in He. injection He as <-. split; [exact Hg | exact Hc].
Defined.

Lemma phantom_rule_has_highest_priority_witness :
  ∃ p,
    prepare Example.read_input Example.load_classlist Example.make_rule
      Partitioner.make_initial_groups "three_by_two" = Ok p ∧
    p_rules p = Distribute "ID" phantom_marker :: Example.user_rules.
Proof.
  eexists. split; [vm_compute; reflexivity|].
  destruct (phantom_rule_has_highest_priority Example.read_input
              Example.load_classlist Example.make_rule
              Partitioner.make_initial_groups Engine.apply_rules_list_id
              Example.check_other Example.mean_text "three_by_two" _
              ltac:(vm_compute; reflexivity))
    as (dek & descs & c0 & ur & _ & _ & _ & Hr & _).
  vm_compute. reflexivity.
Defined.

Lemma configuration_error_is_immediate_witness :
  (Z.of_nat (length (course_students (mkCourse Example.roster3 5 None)))
     < group_size (mkCourse Example.roster3 5 None)) ∧
  Partitioner.make_initial_groups (mkCourse Example.roster3 5 None)
    (py_filter is_Balance Example.user_rules) = Raise ConfigurationError ∧
  Example.run_with Engine.apply_rules_list_id "three_by_five"
    = Raise ConfigurationError ∧
  returned_partition
    (Example.run_with Engine.apply_rules_list_id "three_by_five") = None ∧
  group_size (mkCourse Example.roster3 0 None) ≤ 0 ∧
  Example.run_with Engine.apply_rules_list_id "three_by_zero"
    = Raise ConfigurationError.
Proof.
  assert (Hlarge :
    Z.of_nat (length (course_students (mkCourse Example.roster3 5 None)))
      < group_size (mkCourse Example.roster3 5 None))
    by (vm_compute; reflexivity).
  assert (Hzero : group_size (mkCourse Example.roster3 0 None) ≤ 0)
    by (simpl; lia).
  destruct (configuration_error_is_immediate
              (mkCourse Example.roster3 5 None)
              (py_filter is_Balance Example.user_rules)
              (or_intror (or_introl Hlarge))) as [Hmk Hrun].
  destruct (Hrun Rule Example.read_input Example.load_classlist
              Example.make_rule Engine.apply_rules_list_id
              Example.check_other Example.mean_text "three_by_five"
              (Example.deck "three.csv" 5) "three.csv"%string
              Example.user_rules Example.user_rules
              eq_refl eq_refl eq_refl ltac:(discriminate) eq_refl eq_refl
              eq_refl eq_refl) as [Hraise Hnone].
  destruct (configuration_error_is_immediate
              (mkCourse Example.roster3 0 None)
              (py_filter is_Balance Example.user_rules)
              (or_introl Hzero)) as [_ Hrun0].
  destruct (Hrun0 Rule Example.read_input Example.load_classlist
              Example.make_rule Engine.apply_rules_list_id
              Example.check_other Example.mean_text "three_by_zero"
              (Example.deck "three.csv" 0) "three.csv"%string
              Example.user_rules Example.user_rules
              eq_refl eq_refl eq_refl ltac:(discriminate) eq_refl eq_refl
              eq_refl eq_refl) as [Hraise0 _].
  split; [exact Hlarge|]. split; [exact Hmk|]. split; [exact Hraise|].
  split; [exact Hnone|]. split; [exact Hzero | exact Hraise0].
Defined.



Lemma returned_groups_partition_roster_witness :
  ∃ out,
    Example.run_with Engine.apply_rules_list_rev "three_by_two" = Ok out ∧
    members (out_groups out) ≡ₚ real_students "ID" Example.roster3 ∧
    sum_list (map (λ g, length (students g)) (out_groups out)) = 3%nat.
Proof.
  eexists. split; [vm_compute; reflexivity|].
  destruct (returned_groups_partition_roster Example.read_input
              Example.load_classlist Example.make_rule
              Partitioner.make_initial_groups Engine.apply_rules_list_rev
              Example.check_other Example.mean_text "three_by_two" _
              partitioner_partitions_the_roster
              engine_rev_moves_students_only
              ltac:(vm_compute; reflexivity))
    as (dek & cl & s0 & rest & Hd & Hcl & Hload & Hm & _ & Hsum & _).
  injection Hd as <-. injection Hcl as <-. injection Hload as <- <-.
  split; [exact Hm | exact Hsum].
Defined.

Lemma group_summaries_have_no_balance_mean_witness :
  ∃ out,
    Example.run_with Engine.apply_rules_list_rev "three_by_two" = Ok out ∧
    map fst (out_summaries out) = map group_number (out_groups out) ∧
    Forall (λ x, Forall (λ i, is_MeanItem i = false) x.2) (out_summaries out).
Proof.
  eexists. split; [vm_compute; reflexivity|].
  apply (group_summaries_have_no_balance_mean Example.read_input
           Example.load_classlist Example.make_rule
           Partitioner.make_initial_groups Engine.apply_rules_list_rev
           Example.check_other Example.mean_text "three_by_two").
  - exact partitioner_drains_balance_rules.
  - vm_compute; reflexivity.
Defined.



(** * Further properties of [run] *)

Lemma comprehension_first_failure {A B} (f : A → result B) l1 a l2 bs e :
  comprehension f l1 = Ok bs →
  f a = Raise e →
  comprehension f (l1 ++ a :: l2) = Raise e.
Proof.
  revert bs. induction l1 as [|x l1 IH]; simpl; intros bs Hl1 Ha.
  - by rewrite Ha.
  - bind_inv Hl1 b Hb. bind_inv Hl1 bs' Hbs. rewrite Hb. simpl.
    by rewrite (IH _ Hbs Ha).
Qed.

Lemma without_phantoms_KeyError ident l :
  Exists (λ s, data s !! ident = None) l →
  without_phantoms ident l = Raise KeyError.
Proof.
  induction l as [|s l IH]; intros Hex; [by apply Exists_nil in Hex|].
  simpl. unfold not_phantom at 1.
  destruct (data s !! ident) as [v|] eqn:Hv; simpl; [|done].
  apply Exists_cons in Hex as [Hs|Hl]; [congruence|].
  by rewrite (IH Hl).
Qed.

Lemma without_phantoms_cases ident l :
  without_phantoms ident l = Ok (real_students ident l) ∨
  without_phantoms ident l = Raise KeyError.
Proof.
  destruct (decide (Exists (λ s, data s !! ident = None) l)) as [Hex|Hno].
  - right. by apply without_phantoms_KeyError.
  - left. apply without_phantoms_total.
    apply Forall_forall. intros s Hs. unfold has_identifier.
    destruct (data s !! ident) eqn:Hd; [eauto|].
    exfalso. apply Hno, Exists_exists. eauto.
Qed.

Lemma strip_groups_KeyError ident groups :
  Exists (λ s, data s !! ident = None) (members groups) →
  strip_groups ident groups = Raise KeyError.
Proof.
  unfold members. induction groups as [|g gs IH]; simpl; intros Hex;
    [by apply Exists_nil in Hex|].
  apply Exists_app in Hex as [Hg|Hgs].
  - by rewrite (without_phantoms_KeyError _ _ Hg).
  - destruct (without_phantoms_cases ident (students g)) as [-> | ->];
      simpl; [|done].
    by rewrite (IH Hgs).
Qed.

Lemma sort_by_key_length {A} (key : A → Z) (l : list A) :
  length (sort_by_key key l) = length l.
Proof. apply Permutation_length, sort_by_key_Permutation. Qed.

(** An element put in place by [insert_by_key] passes only elements with a
    strictly smaller key. *)
Lemma insert_by_key_filter {A} (key : A → Z) (x : A) (l : list A) (k : Z) :
  List.filter (λ a, key a =? k) (insert_by_key key x l)
  = List.filter (λ a, key a =? k) (x :: l).
Proof.
  induction l as [|y l IH]; [done|].
  cbn [insert_by_key]. destruct (Z.leb_spec (key x) (key y)) as [Hle|Hlt];
    [done|].
  cbn [List.filter] in *. rewrite IH.
  destruct (Z.eqb_spec (key y) k) as [Hy|Hy];
    destruct (Z.eqb_spec (key x) k) as [Hx|Hx]; (done || lia).
Qed.

Lemma Sorted_map_same_key {A} (key : A → Z) (f : A → A) (l : list A) :
  (∀ a, key (f a) = key a) →
  Sorted (λ a b, key a ≤ key b) l →
  Sorted (λ a b, key a ≤ key b) (map f l).
Proof.
  intros Hf. induction 1 as [|a l _ IH Hhd]; simpl; constructor; [done|].
  destruct Hhd; simpl; constructor. by rewrite !Hf.
Qed.

(** A sorted list is left as it is by the sort. *)
Lemma sort_by_key_sorted {A} (key : A → Z) (l : list A) :
  Sorted (λ a b, key a ≤ key b) l → sort_by_key key l = l.
Proof.
  induction 1 as [|a l _ IH Hhd]; simpl; [done|].
  rewrite IH. destruct Hhd as [|b l Hab]; simpl; [done|].
  by destruct (Z.leb_spec (key a) (key b)); [|lia].
Qed.



Section RunEdges.

Context {RuleDesc : Type}.
Variable read_input : string → result (Deck RuleDesc).
Variable load_classlist : string → option string → result (list Student).
Variable make_rule : RuleDesc → Course → result Rule.
Variable make_initial_groups :
  Course → filter_obj Rule → result (list Group * Course * filter_obj Rule).
Variable apply_rules_list :
  list Rule → list Group → list Student →
  result (bool * list Group * list Student).
Variable check_other : Course → Rule → Group → bool.
Variable mean_text : Group → Rule → string.

Local Abbreviation prepare :=
  (prepare read_input load_classlist make_rule make_initial_groups).
Local Abbreviation enforce := (enforce apply_rules_list).
Local Abbreviation finish := (finish check_other mean_text).
Local Abbreviation check := (check check_other).
Local Abbreviation failures := (failures check_other).
Local Abbreviation enforcement_pass :=
  (enforcement_pass read_input load_classlist make_rule make_initial_groups
                    apply_rules_list).
Local Abbreviation run :=
  (run read_input load_classlist make_rule make_initial_groups
       apply_rules_list check_other mean_text).

(** X1: a deck without ['classlist'] makes [run] raise [KeyError] at line
    55; once the class list is loaded and not empty, a deck without
    ['group_size'] raises it at line 57, and one that has a group size but
    no ['rules'] raises it at line 59. *)
Theorem run_missing_deck_key (input : string) (dek : Deck RuleDesc) :
  read_input input = Ok dek →
  (dek_classlist dek = None → run input = Raise KeyError) ∧
  (∀ classlist s0 rest,
     dek_classlist dek = Some classlist →
     load_classlist classlist (dek_student_identifier dek) = Ok (s0 :: rest) →
     (dek_group_size dek = None → run input = Raise KeyError) ∧
     (∀ gsz, dek_group_size dek = Some gsz → dek_rules dek = None →
        run input = Raise KeyError)).
Proof.
  intros Hdek. unfold run, prepare. rewrite Hdek. simpl. split.
  - by intros ->.
  - intros classlist s0 rest -> Hload. simpl. rewrite Hload. simpl. split.
    + by intros ->.
    + intros gsz -> ->. done.
Qed.

(** X2: an empty class list makes [run] raise [IndexError] at line 56,
    whatever else the deck holds: the group size and the rules are not
    looked at and no collaborator after [load_classlist] is called. *)
Theorem run_empty_classlist (input : string) (dek : Deck RuleDesc)
    (classlist : string) :
  read_input input = Ok dek →
  dek_classlist dek = Some classlist →
  load_classlist classlist (dek_student_identifier dek) = Ok [] →
  run input = Raise IndexError.
Proof.
  intros Hdek Hcl Hload. unfold run, prepare.
  rewrite Hdek. simpl. rewrite Hcl. simpl. by rewrite Hload.
Qed.

(** X3: the rules are made from the descriptors from left to right; the
    exception of the first descriptor [make_rule] rejects is the one [run]
    raises, whatever the descriptors after it are. *)
Theorem run_first_bad_rule (input : string) (dek : Deck RuleDesc)
    (classlist : string) (s0 : Student) (rest : list Student) (gsz : Z)
    (good : list RuleDesc) (bad : RuleDesc) (later : list RuleDesc)
    (rules : list Rule) (e : error) :
  read_input input = Ok dek →
  dek_classlist dek = Some classlist →
  load_classlist classlist (dek_student_identifier dek) = Ok (s0 :: rest) →
  dek_group_size dek = Some gsz →
  dek_rules dek = Some (good ++ bad :: later) →
  comprehension
    (λ r, make_rule r (mkCourse (s0 :: rest) gsz (dek_uneven_size dek)))
    good = Ok rules →
  make_rule bad (mkCourse (s0 :: rest) gsz (dek_uneven_size dek)) = Raise e →
  run input = Raise e.
Proof.
  intros Hdek Hcl Hload Hgsz Hrules Hgood Hbad. unfold run, prepare.
  rewrite Hdek. simpl. rewrite Hcl. simpl. rewrite Hload. simpl.
  rewrite Hgsz. simpl. rewrite Hrules. simpl.
  by rewrite (comprehension_first_failure _ _ _ _ _ _ Hgood Hbad).
Qed.


(** X5: on a normal return the success flag is the one the rule engine
    returned, and the groups come back in non-decreasing order of group
    number: they are the engine's groups, as many as it left, each under
    its own number, even a group that phantom removal emptied. *)
Theorem run_returns_sorted_groups (input : string) (out : Out) :
  run input = Ok out →
  ∃ p suceeded groups studs,
    prepare input = Ok p ∧
    apply_rules_list (p_rules p) (p_groups p) (course_students (p_course p))
      = Ok (suceeded, groups, studs) ∧
    out_suceeded out = suceeded ∧
    Sorted (λ g h, group_number g ≤ group_number h) (out_groups out) ∧
    map group_number (out_groups out) ≡ₚ map group_number groups ∧
    length (out_groups out) = length groups.
Proof.
  unfold run. intros H. bind_inv H p Hp. bind_inv H e He.
  apply enforce_inv in He as (b & gs & st & Happ & ->).
  apply finish_inv in H as (r0 & _ & _ & Hg & _ & Hs & _). simpl in Hg, Hs.
  exists p, b, gs, st. split; [done|]. split; [done|]. split; [done|].
  rewrite Hg. split; [|split].
  - apply (Sorted_map_same_key group_number); [done|].
    apply sort_by_key_Sorted.
  - rewrite map_map. simpl.
    apply Permutation_map, sort_by_key_Permutation.
  - by rewrite length_map, sort_by_key_length.
Qed.

(** X6: the sort of line 73 is stable: the groups that carry one and the
    same number come out in the order the list had them in. *)
Theorem sort_keeps_order_of_equal_numbers (groups : list Group) (k : Z) :
  List.filter (λ g, group_number g =? k) (sort_by_key group_number groups)
  = List.filter (λ g, group_number g =? k) groups.
Proof.
  induction groups as [|g gs IH]; [done|].
  cbn [sort_by_key]. rewrite insert_by_key_filter.
  cbn [List.filter]. by rewrite IH.
Qed.

(** X7: past the test of line 79, a single student without the identifier
    attribute, in a group or in the course, makes [run] raise [KeyError]
    in lines 83-87. *)
Theorem run_KeyError_without_identifier (input : string) (e : Enforced) :
  enforcement_pass input = Ok e →
  failures (e_course e) (e_groups e)
           (Distribute (e_identifier e) phantom_marker) = 0 →
  Exists (λ s, data s !! e_identifier e = None)
         (members (e_groups e) ++ course_students (e_course e)) →
  run input = Raise KeyError.
Proof.
  intros He Hz Hex. rewrite run_enforcement_pass, He. simpl.
  destruct (enforcement_pass_rules _ _ _ _ _ _ _ He) as [ur Hr].
  unfold finish. rewrite Hr. simpl. rewrite Hz. simpl.
  apply Exists_app in Hex as [Hg|Hc].
  - by rewrite (strip_groups_KeyError _ _ Hg).
  - destruct (strip_groups (e_identifier e) (e_groups e)) as [gs|err] eqn:Hs.
    + simpl. by rewrite (without_phantoms_KeyError _ _ Hc).
    + simpl. f_equal.
      destruct (decide (Exists (λ s, data s !! e_identifier e = None)
                               (members (e_groups e)))) as [Hex|Hno].
      * rewrite (strip_groups_KeyError _ _ Hex) in Hs. by injection Hs.
      * exfalso. rewrite strip_groups_total in Hs; [done|].
        apply Forall_forall. intros g Hg. apply Forall_forall. intros s Hin.
        unfold has_identifier.
        destruct (data s !! e_identifier e) eqn:Hd; [eauto|].
        exfalso. apply Hno, Exists_exists. exists s. split; [|done].
        unfold members. apply list_elem_of_In, in_concat.
        exists (students g). split; [|by apply list_elem_of_In].
        apply List.in_map. by apply list_elem_of_In.
Qed.


End RunEdges.

Lemma next_from_shorter {A} (p : A → bool) (l l' : list A) (a : A) :
  next_from p l = Some (a, l') → (length l' < length l)%nat.
Proof.
  induction l as [|b l IH]; simpl; [done|].
  destruct (p b).
  - intros [= _ <-]. lia.
  - intros H. specialize (IH H). lia.
Qed.

(** X9: the loop written with [next] and run until [StopIteration] sees
    the elements the [for] loop sees, in the same order, and leaves an
    exhausted iterator; as many calls as the underlying list has elements
    are enough. *)
Theorem next_until_stop_drains {A} (fuel : nat) (it : filter_obj A) :
  (length (pending it) ≤ fuel)%nat →
  (next_until_stop fuel it).1 = (drain it).1 ∧
  exhausted (next_until_stop fuel it).2.
Proof.
  revert it. induction fuel as [|fuel IH]; intros it Hlen.
  - destruct it as [p [|a l]]; simpl in *; [done | lia].
  - cbn [next_until_stop].
    destruct (filter_next it) as [[a it']|] eqn:Hnext.
    + assert (Hshort : (length (pending it') ≤ fuel)%nat).
      { unfold filter_next in Hnext.
        destruct (next_from _ _) as [[b l']|] eqn:Hn; [|done].
        injection Hnext as -> <-. simpl.
        apply next_from_shorter in Hn. lia. }
      destruct (IH it' Hshort) as [H1 H2].
      destruct (next_until_stop fuel it') as [l it'']. cbn [fst snd] in *.
      split; [|done]. by rewrite (drain_next _ _ _ Hnext), H1.
    + cbn [fst snd]. split; [|done]. symmetry. by apply drain_of_exhausted.
Qed.

Section RunReport.

Context {RuleDesc : Type}.
Variable read_input : string → result (Deck RuleDesc).
Variable load_classlist : string → option string → result (list Student).
Variable make_rule : RuleDesc → Course → result Rule.
Variable make_initial_groups :
  Course → filter_obj Rule → result (list Group * Course * filter_obj Rule).
Variable apply_rules_list :
  list Rule → list Group → list Student →
  result (bool * list Group * list Student).
Variable check_other : Course → Rule → Group → bool.
Variable mean_text : Group → Rule → string.

Local Abbreviation prepare :=
  (prepare read_input load_classlist make_rule make_initial_groups).
Local Abbreviation check := (check check_other).
Local Abbreviation failures := (failures check_other).
Local Abbreviation group_summaries := (group_summaries check_other mean_text).
Local Abbreviation run :=
  (run read_input load_classlist make_rule make_initial_groups
       apply_rules_list check_other mean_text).

Lemma failures_bounds c groups r :
  0 ≤ failures c groups r ≤ Z.of_nat (length groups).
Proof.
  rewrite failures_filter_length.
  pose proof (List.filter_length_le (λ g, negb (check c r g)) groups). lia.
Qed.

(** X10: the per-rule lines of the report name the user's rules, one line
    per rule and in the order of the deck's descriptors, never the phantom
    rule; each count is that rule's failure count on the returned groups
    and lies between 0 and the number of groups. *)
Theorem rule_report_lists_user_rules (input : string) (out : Out) :
  run input = Ok out →
  ∃ dek descs course0 user_rules,
    read_input input = Ok dek ∧
    dek_rules dek = Some descs ∧
    Forall2 (λ d r, make_rule d course0 = Ok r) descs user_rules ∧
    map fst (out_rule_report out) = user_rules ∧
    length (out_rule_report out) = length descs ∧
    Forall (λ x, x.2 = failures (out_course out) (out_groups out) x.1 ∧
                 0 ≤ x.2 ≤ Z.of_nat (length (out_groups out)))
           (out_rule_report out).
Proof.
  unfold run. intros H. bind_inv H p Hp. bind_inv H e He.
  apply prepare_inv in Hp
    as (dek & cl & s0 & rest & gsz & descs & ur & gs & c & it & Hd & _ & _
        & _ & Hdescs & Hur & _ & ->).
  apply enforce_inv in He as (b & gs' & st & _ & ->).
  apply finish_inv in H as (r0 & _ & _ & _ & _ & _ & _ & Hrep & _).
  simpl in Hrep.
  exists dek, descs, (mkCourse (s0 :: rest) gsz (dek_uneven_size dek)), ur.
  split; [done|]. split; [done|].
  pose proof (comprehension_Forall2 _ _ _ Hur) as Hf2.
  split; [done|]. rewrite Hrep. split; [|split].
  - rewrite map_map. simpl. apply map_id.
  - rewrite length_map. symmetry. by eapply Forall2_length.
  - apply List.Forall_forall. intros x Hx.
    apply List.in_map_iff in Hx as (r & <- & _). simpl.
    split; [done | apply failures_bounds].
Qed.

Lemma filter_items_failed (means : list Rule) (f : Rule → item)
    (failed : list Rule) :
  (∀ r, is_MeanItem (f r) = true) →
  List.filter (λ i, negb (is_MeanItem i)) (map f means ++ map FailedItem failed)
  = map FailedItem failed.
Proof.
  intros Hf. rewrite List.filter_app.
  assert (List.filter (λ i, negb (is_MeanItem i)) (map f means) = []) as ->.
  { induction means as [|r l IH]; simpl; [done|]. by rewrite Hf. }
  simpl. induction failed as [|r l IH]; simpl; [done|]. by rewrite IH.
Qed.

Lemma filter_items_means (means : list Rule) (f : Rule → item)
    (failed : list Rule) :
  (∀ r, is_MeanItem (f r) = true) →
  List.filter is_MeanItem (map f means ++ map FailedItem failed) = map f means.
Proof.
  intros Hf. rewrite List.filter_app.
  assert (List.filter is_MeanItem (map FailedItem failed) = []) as ->
    by (induction failed; simpl; auto).
  rewrite app_nil_r. induction means as [|r l IH]; simpl; [done|].
  by rewrite Hf, IH.
Qed.

Lemma group_summaries_failed c rules groups it :
  Forall2 (λ x g,
             x.1 = group_number g ∧
             List.filter (λ i, negb (is_MeanItem i)) x.2
             = map FailedItem (List.filter (λ r, negb (check c r g)) rules))
          (group_summaries c rules groups it).1 groups.
Proof.
  revert it. induction groups as [|g gs IH]; intros it; [by constructor|].
  rewrite group_summaries_cons. cbn [fst snd]. constructor; [|apply IH].
  cbn [fst snd]. split; [done|]. by apply filter_items_failed.
Qed.

(** X11: in the group summaries, the items other than Balance means of a
    group are the rules the group fails, the phantom rule among them when
    it does, in the order of the rule list, each rule once. *)
Theorem summaries_list_failed_rules (input : string) (out : Out) :
  run input = Ok out →
  Forall2 (λ x g,
             x.1 = group_number g ∧
             List.filter (λ i, negb (is_MeanItem i)) x.2
             = map FailedItem
                 (List.filter (λ r, negb (check (out_course out) r g))
                              (out_rules out)))
          (out_summaries out) (out_groups out).
Proof.
  rewrite run_enforcement_pass. intros H. bind_inv H e He.
  apply finish_inv in H as (r0 & _ & _ & _ & _ & _ & Hrules & _ & Hsum).
  rewrite Hsum, Hrules. apply group_summaries_failed.
Qed.

(** X12: [balance_rules] is one iterator for all the groups: whatever the
    partitioner left in it is used up by the summary of the first group,
    which gets one mean item per Balance rule still pending, and no later
    group's summary has a Balance mean. *)
Theorem balance_means_only_in_first_summary (input : string) (out : Out) :
  run input = Ok out →
  ∃ p,
    prepare input = Ok p ∧
    Forall (λ x, Forall (λ i, is_MeanItem i = false) x.2)
           (tail (out_summaries out)) ∧
    ∀ x g,
      head (out_summaries out) = Some x →
      head (out_groups out) = Some g →
      List.filter is_MeanItem x.2
      = map (λ r, MeanItem (rule_attribute r) (mean_text g r))
            (drain (p_balance_rules p)).1.
Proof.
  unfold run. intros H. bind_inv H p Hp. bind_inv H e He.
  exists p. split; [done|].
  apply enforce_inv in He as (b & gs' & st & _ & ->).
  apply finish_inv in H as (r0 & _ & _ & _ & _ & _ & _ & _ & Hsum).
  simpl in Hsum. rewrite Hsum.
  destruct (out_groups out) as [|g gs]; [split; [constructor | done]|].
  rewrite group_summaries_cons. cbn [fst snd tail head]. split.
  - apply group_summaries_exhausted, drain_exhausted.
  - intros x g' [= <-] [= <-]. cbn [snd].
    by apply filter_items_means.
Qed.

End RunReport.

(** * The output functions *)

(** ** [group_output] *)

Lemma write_each_app {A} (line : A → result string) (l1 l2 : list A) ws :
  Forall2 (λ a w, line a = Ok w) l1 ws →
  write_each line (l1 ++ l2)
  = (ws ++ (write_each line l2).1, (write_each line l2).2).
Proof.
  induction 1 as [|a w l1 ws Ha _ IH]; simpl.
  - by destruct (write_each line l2).
  - rewrite Ha, IH. done.
Qed.

Lemma write_each_Ok {A} (line : A → result string) (l : list A) ws :
  Forall2 (λ a w, line a = Ok w) l ws →
  write_each line l = (ws, None).
Proof.
  intros H. rewrite <- (app_nil_r l), (write_each_app _ _ _ _ H). simpl.
  by rewrite app_nil_r.
Qed.

Lemma comprehension_Ok {A B} (f : A → result B) l bs :
  Forall2 (λ a b, f a = Ok b) l bs → comprehension f l = Ok bs.
Proof.
  induction 1 as [|a b l bs Ha _ IH]; [done|].
  cbn [comprehension]. rewrite Ha, IH. reflexivity.
Qed.

Lemma comprehension_Raise {A B} (f : A → result B) l e :
  Forall (λ a, (∃ b, f a = Ok b) ∨ f a = Raise e) l →
  Exists (λ a, f a = Raise e) l →
  comprehension f l = Raise e.
Proof.
  induction 1 as [|a l Ha _ IH]; intros Hex; [by apply Exists_nil in Hex|].
  cbn [comprehension]. destruct Ha as [[b Hb]|Ha].
  - rewrite Hb. apply Exists_cons in Hex as [Hx|Hl]; [congruence|].
    rewrite (IH Hl). reflexivity.
  - rewrite Ha. reflexivity.
Qed.

Lemma student_getitem_cases s ident :
  (∃ v, student_getitem s ident = Ok v) ∨
  student_getitem s ident = Raise KeyError.
Proof.
  unfold student_getitem. destruct (data s !! ident); simpl; eauto.
Qed.

Lemma getitem_comprehension_KeyError ident (l : list Student) :
  Exists (λ s, data s !! ident = None) l →
  comprehension (λ s, student_getitem s ident) l = Raise KeyError.
Proof.
  intros Hex. apply comprehension_Raise.
  - apply Forall_forall. intros s _. apply student_getitem_cases.
  - eapply Exists_impl; [done|]. intros s Hs. simpl.
    unfold student_getitem. by rewrite Hs.
Qed.

Lemma getitem_comprehension_Ok ident (l : list Student) (keys : list value) :
  Forall2 (λ s v, data s !! ident = Some v) l keys →
  comprehension (λ s, student_getitem s ident) l = Ok keys.
Proof.
  intros H. apply comprehension_Ok.
  eapply Forall2_impl; [done|]. intros s v Hs. simpl.
  unfold student_getitem. by rewrite Hs.
Qed.

Lemma group_line_KeyError ident sep g :
  Exists (λ s, data s !! ident = None) (students g) →
  group_line ident sep g = Raise KeyError.
Proof.
  intros Hex. unfold group_line.
  by rewrite (getitem_comprehension_KeyError _ _ Hex).
Qed.

(** X13: [group_output] writes the groups in the order of their numbers
    and stops at the first group one of whose members has no identifier
    attribute: the lines of the groups before it are written, the function
    raises [KeyError], and the list of groups is left sorted. *)
Theorem group_output_KeyError (groups before after : list Group) (g : Group)
    (ident sep : string) (ws : list string) :
  sort_by_key group_number groups = before ++ g :: after →
  Forall2 (λ h w, group_line ident sep h = Ok w) before ws →
  Exists (λ s, data s !! ident = None) (students g) →
  group_output groups ident sep = (before ++ g :: after, (ws, Some KeyError)).
Proof.
  intros Hsort Hbefore Hex. unfold group_output. rewrite Hsort.
  rewrite (write_each_app _ _ _ _ Hbefore). simpl.
  rewrite (group_line_KeyError _ _ _ Hex). simpl. by rewrite app_nil_r.
Qed.

Lemma ltb_asym (s t : string) : String.ltb s t = true → String.ltb t s = false.
Proof.
  unfold String.ltb. rewrite (String.compare_antisym s t).
  by destruct (String.compare t s).
Qed.

Lemma insert_by_value_strings {A} (x : value * A) (l : list (value * A)) :
  is_string x.1 →
  Forall (λ y, is_string y.1) l →
  ∃ r,
    insert_by_value x l = Ok r ∧
    r ≡ₚ x :: l ∧
    (Sorted names_ascending l → Sorted names_ascending r) ∧
    (∀ y, HdRel names_ascending y l → names_ascending y x →
          HdRel names_ascending y r).
Proof.
  intros [s Hx] Hl. induction Hl as [|y l [t Hy] _ IH].
  - exists [x]. simpl. split; [done|]. split; [done|].
    split; [by repeat constructor|]. intros y _ Hyx. by constructor.
  - destruct IH as (r & Hr & Hperm & Hsorted & Hhd).
    simpl. rewrite Hy, Hx. simpl.
    destruct (String.ltb t s) eqn:Hlt.
    + rewrite Hr. simpl. exists (y :: r).
      split; [done|]. split; [by rewrite Hperm, Permutation_swap|]. split.
      * intros Hs. inversion Hs as [|? ? Hs' Hhd']; subst.
        constructor; [auto|]. apply Hhd; [done|].
        unfold names_ascending. rewrite Hy, Hx. simpl. by apply ltb_asym.
      * intros z Hz Hzx. inversion Hz; subst. by constructor.
    + exists (x :: y :: l). split; [done|]. split; [done|]. split.
      * intros Hs. constructor; [done|]. constructor.
        unfold names_ascending. by rewrite Hy, Hx.
      * intros z _ Hzx. by constructor.
Qed.

Lemma sorted_by_value_strings {A} (l : list (value * A)) :
  Forall (λ y, is_string y.1) l →
  ∃ r,
    sorted_by_value l = Ok r ∧ r ≡ₚ l ∧ Sorted names_ascending r.
Proof.
  induction 1 as [|x l Hx Hl IH].
  - exists []. by repeat split.
  - destruct IH as (t & Ht & Hperm & Hsorted).
    destruct (insert_by_value_strings x t Hx) as (r & Hr & Hp & Hs & _).
    { by rewrite Hperm. }
    exists r. simpl. rewrite Ht. simpl.
    split; [done|]. split; [by rewrite Hp, Hperm | auto].
Qed.

Lemma names_of_sorted ident (pairs : list (value * Student)) :
  Forall (λ p, data p.2 !! ident = Some p.1) pairs →
  comprehension (λ s, v ← student_getitem s ident; Ok (str_value v))
                (map snd pairs)
  = Ok (map (λ p, str_value p.1) pairs).
Proof.
  intros H. apply comprehension_Ok.
  induction H as [|p l Hp _ IH]; simpl; constructor; [|done].
  unfold student_getitem. by rewrite Hp.
Qed.

Lemma Sorted_names {A} (l : list (value * A)) :
  Forall (λ y, is_string y.1) l →
  Sorted names_ascending l →
  Sorted (λ a b, String.ltb b a = false) (map (λ p, str_value p.1) l).
Proof.
  intros Hl Hs. induction Hs as [|a l _ IH Hhd]; simpl; [constructor|].
  apply Forall_cons in Hl as [[s Ha] Hl]. constructor; [auto|].
  destruct Hhd as [|b l Hab]; simpl; constructor.
  apply Forall_cons in Hl as [[t Hb] _].
  unfold names_ascending in Hab. rewrite Ha, Hb in *. done.
Qed.

(** X14: when the identifiers of a group's members are strings, its line
    is written without exception and reads [Group], the group number, and
    the members' identifiers, every member once and in ascending order,
    the separator before each. *)
Theorem group_line_sorted_names (ident sep : string) (g : Group)
    (ids : list string) :
  Forall2 (λ s id, data s !! ident = Some (VStr id)) (students g) ids →
  ∃ names,
    group_line ident sep g
      = Ok ("Group " +:+ pretty (group_number g) +:+ sep
            +:+ String.concat sep names +:+ newline) ∧
    names ≡ₚ ids ∧
    Sorted (λ a b, String.ltb b a = false) names.
Proof.
  intros Hids. unfold group_line.
  assert (Hkeys : Forall2 (λ s v, data s !! ident = Some v) (students g)
                          (map VStr ids)).
  { induction Hids; simpl; constructor; auto. }
  rewrite (getitem_comprehension_Ok _ _ _ Hkeys). simpl.
  assert (Hstr : Forall (λ y : value * Student, is_string y.1)
                        (zip (map VStr ids) (students g))).
  { clear Hkeys. induction Hids; simpl; constructor; [by eexists | done]. }
  assert (Hpair : Forall (λ p : value * Student, data p.2 !! ident = Some p.1)
                         (zip (map VStr ids) (students g))).
  { clear Hkeys Hstr. induction Hids; simpl; constructor; done. }
  destruct (sorted_by_value_strings _ Hstr) as (r & Hr & Hperm & Hsorted).
  rewrite Hr. simpl.
  rewrite (names_of_sorted ident r) by (by rewrite Hperm). simpl.
  eexists. split; [reflexivity|]. split.
  - etrans; [exact (Permutation_map (λ p, str_value p.1) Hperm)|].
    clear -Hids. induction Hids; simpl; [done | by constructor].
  - apply Sorted_names; [by rewrite Hperm | done].
Qed.

Lemma value_lt_cases a b :
  (∃ c, value_lt a b = Ok c) ∨ value_lt a b = Raise TypeError.
Proof. destruct a, b; simpl; eauto. Qed.

Lemma insert_by_value_cases {A} (x : value * A) (l : list (value * A)) :
  (∃ r, insert_by_value x l = Ok r ∧ r ≡ₚ x :: l) ∨
  insert_by_value x l = Raise TypeError.
Proof.
  induction l as [|y l IH]; [left; by exists [x]|].
  cbn [insert_by_value].
  destruct (value_lt_cases y.1 x.1) as [[c ->] | ->]; [|by right].
  destruct c; [|left; by eexists].
  destruct IH as [(r & -> & Hr) | ->]; [|by right].
  left. exists (y :: r). split; [done|]. by rewrite Hr, Permutation_swap.
Qed.

Lemma sorted_by_value_cases {A} (l : list (value * A)) :
  (∃ r, sorted_by_value l = Ok r ∧ r ≡ₚ l) ∨
  sorted_by_value l = Raise TypeError.
Proof.
  induction l as [|x l IH]; [left; by exists []|].
  cbn [sorted_by_value]. destruct IH as [(t & -> & Ht) | ->]; [|by right].
  destruct (insert_by_value_cases x t) as [(r & Hr & Hp) | Hr].
  - left. exists r. split; [done|]. by rewrite Hp, Ht.
  - by right.
Qed.

(** With the identifier on every member, a group's line can only fail in
    the comparison of the identifiers. *)
Lemma group_line_cases ident sep g :
  Forall (has_identifier ident) (students g) →
  (∃ w, group_line ident sep g = Ok w) ∨
  group_line ident sep g = Raise TypeError.
Proof.
  intros Hall. unfold group_line.
  assert (∃ keys, Forall2 (λ s v, data s !! ident = Some v) (students g) keys)
    as [keys Hkeys].
  { induction Hall as [|s l [v Hv] _ [keys IH]]; [by exists []|].
    exists (v :: keys). by constructor. }
  rewrite (getitem_comprehension_Ok _ _ _ Hkeys).
  assert (Hpair : Forall (λ p : value * Student, data p.2 !! ident = Some p.1)
                         (zip keys (students g))).
  { clear Hall. induction Hkeys; simpl; constructor; done. }
  destruct (sorted_by_value_cases (zip keys (students g)))
    as [(r & Hr & Hp) | Hr].
  - left. cbn. rewrite Hr. cbn.
    rewrite (names_of_sorted ident r) by (by rewrite Hp). cbn. eauto.
  - right. cbn. by rewrite Hr.
Qed.

Lemma write_each_cases {A} (line : A → result string) (l : list A) e :
  Forall (λ a, (∃ w, line a = Ok w) ∨ line a = Raise e) l →
  (write_each line l).2 = None ∧
  length (write_each line l).1 = length l
  ∨ (write_each line l).2 = Some e.
Proof.
  induction 1 as [|a l Ha _ IH]; [by left|].
  cbn [write_each]. destruct Ha as [[w ->] | ->]; [|by right].
  destruct (write_each line l) as [ws err]. cbn [fst snd] in *.
  destruct IH as [[-> Hlen] | ->]; [left | right]; simpl; auto.
Qed.

Lemma without_phantoms_has_identifier ident l l' :
  without_phantoms ident l = Ok l' → Forall (has_identifier ident) l.
Proof.
  revert l'. induction l as [|s l IH]; intros l' H; [constructor|].
  cbn [without_phantoms] in H. bind_inv H keep Hk. bind_inv H rest Hr.
  constructor; [|eauto]. unfold not_phantom in Hk.
  unfold has_identifier. destruct (data s !! ident); [eauto | done].
Qed.

Lemma strip_groups_has_identifier ident groups groups' :
  strip_groups ident groups = Ok groups' →
  Forall (λ g, Forall (has_identifier ident) (students g)) groups.
Proof.
  revert groups'. induction groups as [|g gs IH]; intros gs' H; [constructor|].
  cbn [strip_groups] in H. bind_inv H l Hl. bind_inv H rest Hr.
  constructor; [|eauto]. by eapply without_phantoms_has_identifier.
Qed.

Lemma real_students_has_identifier ident l :
  Forall (has_identifier ident) l →
  Forall (has_identifier ident) (real_students ident l).
Proof.
  intros H. apply List.Forall_forall. intros s Hs.
  apply List.filter_In in Hs as [Hs _].
  by apply (proj1 (List.Forall_forall _ _) H).
Qed.

Lemma real_students_all_phantoms ident l :
  Forall (λ s, is_phantom ident s = true) l → real_students ident l = [].
Proof.
  unfold real_students. induction 1 as [|s l Hs _ IH]; [done|].
  cbn [List.filter]. rewrite Hs. exact IH.
Qed.

Section OutputAfterRun.

Context {RuleDesc : Type}.
Variable read_input : string → result (Deck RuleDesc).
Variable load_classlist : string → option string → result (list Student).
Variable make_rule : RuleDesc → Course → result Rule.
Variable make_initial_groups :
  Course → filter_obj Rule → result (list Group * Course * filter_obj Rule).
Variable apply_rules_list :
  list Rule → list Group → list Student →
  result (bool * list Group * list Student).
Variable check_other : Course → Rule → Group → bool.
Variable mean_text : Group → Rule → string.
Variable headers : Student → list string.
Variable full_record : Student → string.

Local Abbreviation finish := (finish check_other mean_text).
Local Abbreviation enforcement_pass :=
  (enforcement_pass read_input load_classlist make_rule make_initial_groups
                    apply_rules_list).
Local Abbreviation run :=
  (run read_input load_classlist make_rule make_initial_groups
       apply_rules_list check_other mean_text).

(** X15: once [run] is past phantom removal, the calls of lines 104 and
    105 find the groups already in order and leave the list as it is;
    every member carries the identifier, so the only exception
    [group_output] can still raise is the [TypeError] of identifiers that
    cannot be compared; without it one line per group is written. *)
Theorem group_output_after_run (input : string) (out : Out) (sep : string) :
  run input = Ok out →
  ∃ e,
    enforcement_pass input = Ok e ∧
    (group_output (out_groups out) (e_identifier e) sep).1 = out_groups out ∧
    ((group_output (out_groups out) (e_identifier e) sep).2.2 = None ∧
     length (group_output (out_groups out) (e_identifier e) sep).2.1
       = length (out_groups out)
     ∨ (group_output (out_groups out) (e_identifier e) sep).2.2
       = Some TypeError).
Proof.
  rewrite run_enforcement_pass. intros H. bind_inv H e He.
  exists e. split; [done|].
  pose proof (finish_inv _ _ _ _ H) as (r0 & _ & _ & Hg & Hc & _).
  assert (Hsorted : Sorted (λ g h, group_number g ≤ group_number h)
                           (out_groups out)).
  { rewrite Hg. apply (Sorted_map_same_key group_number); [done|].
    unfold enforcement_pass in He. bind_inv He p Hp.
    apply enforce_inv in He as (b & gs & st & _ & ->). simpl.
    apply sort_by_key_Sorted. }
  unfold group_output. cbn [fst snd].
  rewrite (sort_by_key_sorted _ _ Hsorted). split; [done|].
  apply write_each_cases. apply Forall_forall. intros g Hin.
  apply group_line_cases.
  assert (Hall : Forall (λ g, Forall (has_identifier (e_identifier e))
                                     (students g)) (out_groups out)).
  { rewrite Hg. unfold finish in H. bind_inv H r1 Hr1.
    destruct (negb _); [discriminate|].
    bind_inv H groups Hgroups.
    apply strip_groups_has_identifier in Hgroups.
    apply List.Forall_forall. intros h Hh.
    apply List.in_map_iff in Hh as (g0 & <- & Hin0). simpl.
    apply real_students_has_identifier.
    by apply (proj1 (List.Forall_forall _ _) Hgroups). }
  by apply (proj1 (Forall_forall _ _) Hall).
Qed.

(** X16: once [run] is past phantom removal, the call of line 106 hands
    [student_full_output] the course's students without the phantoms:
    when every student the engine left in the course is a phantom, nothing
    is written and the function raises [IndexError] at [students[0]];
    otherwise it writes the header line and one line per remaining student
    and does not raise. *)
Theorem full_output_after_run (input : string) (out : Out) :
  run input = Ok out →
  ∃ e,
    enforcement_pass input = Ok e ∧
    (Forall (λ s, is_phantom (e_identifier e) s = true)
            (course_students (e_course e)) →
     student_full_output headers full_record (course_students (out_course out))
       = ([], Some IndexError)) ∧
    (Exists (λ s, is_phantom (e_identifier e) s = false)
            (course_students (e_course e)) →
     (student_full_output headers full_record
        (course_students (out_course out))).2 = None ∧
     length (student_full_output headers full_record
               (course_students (out_course out))).1
       = S (length (real_students (e_identifier e)
                                  (course_students (e_course e))))).
Proof.
  rewrite run_enforcement_pass. intros H. bind_inv H e He.
  exists e. split; [done|].
  apply finish_inv in H as (r0 & _ & _ & _ & Hc & _). rewrite Hc. simpl.
  split.
  - intros Hall.
    by rewrite (real_students_all_phantoms _ _ Hall).
  - intros Hex.
    destruct (real_students (e_identifier e) (course_students (e_course e)))
      as [|s0 rest] eqn:Hreal.
    + exfalso. apply Exists_exists in Hex as (s & Hin & Hs).
      assert (s ∈ real_students (e_identifier e)
                     (course_students (e_course e))).
      { apply list_elem_of_In, List.filter_In. split.
        - by apply list_elem_of_In.
        - by rewrite Hs. }
      rewrite Hreal in H. by apply elem_of_nil in H.
    + simpl. split; [done|]. by rewrite length_map.
Qed.

End OutputAfterRun.

(** ** [student_augmented_output] *)

Section AugmentedFacts.

Context {Obj Grp : Type}.
Variable headers : Obj → list string.
Variable full_record : Obj → string.
Variable obj_group_number : Obj → Z.
Variable obj_group : Obj → Grp.
Variable rule_name : Rule → string.
Variable mean_str : Grp → Rule → string.
Variable check_members : Rule → Grp → bool.

Local Abbreviation rows :=
  (augmented_rows full_record obj_group_number obj_group rule_name mean_str
                  check_members).
Local Abbreviation summary :=
  (summary_items rule_name mean_str check_members).
Local Abbreviation output :=
  (student_augmented_output headers full_record obj_group_number obj_group
                            rule_name mean_str check_members).

Lemma item_before_inside (done rest : list Obj) :
  rest ≠ [] → ∃ q, item_before (done ++ rest) (length done) = Ok q.
Proof.
  intros Hne. destruct done as [|d done]; simpl.
  - destruct (last rest) eqn:Hl; [eauto|].
    apply last_None in Hl. done.
  - destruct ((d :: done ++ rest) !! length done) eqn:Hl; [eauto|].
    apply lookup_ge_None in Hl. simpl in Hl. rewrite length_app in Hl. lia.
Qed.

Lemma augmented_rows_cons rules width all i s rest current :
  rows rules width all i (s :: rest) current
  = if bool_decide (obj_group_number s ≠ current) then
      match item_before all i with
      | Raise e => ([], Some e)
      | Ok previous =>
          ("summary"%string
           :: repeat_string ", " width
           :: String.concat ", " (summary rules (obj_group previous))
           :: (newline +:+ newline)
           :: (full_record s +:+ newline)
           :: (rows rules width all (S i) rest (obj_group_number s)).1,
           (rows rules width all (S i) rest (obj_group_number s)).2)
      end
    else
      ((full_record s +:+ newline)
       :: (rows rules width all (S i) rest current).1,
       (rows rules width all (S i) rest current).2).
Proof.
  cbn [augmented_rows].
  destruct (bool_decide (obj_group_number s ≠ current)).
  - destruct (item_before all i); [|done].
    by destruct (rows rules width all (S i) rest (obj_group_number s)).
  - by destruct (rows rules width all (S i) rest current).
Qed.

Lemma rows_step rules width (done : list Obj) s rest c :
  rows rules width (done ++ s :: rest) (S (length done)) rest c
  = rows rules width ((done ++ [s]) ++ rest) (length (done ++ [s])) rest c.
Proof.
  rewrite <- (assoc_L (++)), length_app. simpl. by rewrite Nat.add_1_r.
Qed.

Lemma rows_count rules width (rest done : list Obj) current :
  (rows rules width (done ++ rest) (length done) rest current).2 = None ∧
  length (rows rules width (done ++ rest) (length done) rest current).1
  = (length rest
     + 4 * group_changes current (map obj_group_number rest))%nat.
Proof.
  revert done current. induction rest as [|s rest IH]; intros done current.
  - done.
  - rewrite augmented_rows_cons.
    destruct (item_before_inside done (s :: rest)) as [q Hq]; [done|].
    rewrite Hq, !rows_step. cbn [map group_changes].
    destruct (decide (obj_group_number s = current)) as [Heq|Hne].
    + rewrite !bool_decide_eq_false_2 by (intros H; by apply H).
      cbn [fst snd]. destruct (IH (done ++ [s]) current) as [He Hl].
      rewrite He. split; [done|]. cbn [length]. rewrite Hl, Heq. lia.
    + rewrite !bool_decide_eq_true_2 by done.
      cbn [fst snd].
      destruct (IH (done ++ [s]) (obj_group_number s)) as [He Hl].
      rewrite He. split; [done|]. cbn [length]. rewrite Hl. lia.
Qed.

Lemma rows_last rules width (rest done : list Obj) current :
  last (rows rules width (done ++ rest) (length done) rest current).1
  = (λ s, full_record s +:+ newline) <$> last rest.
Proof.
  revert done current. induction rest as [|s rest IH]; intros done current.
  - done.
  - rewrite augmented_rows_cons.
    destruct (item_before_inside done (s :: rest)) as [q Hq]; [done|].
    rewrite Hq, !rows_step.
    destruct (bool_decide (obj_group_number s ≠ current)); cbn [fst snd];
      rewrite !last_cons, IH; by destruct (last rest).
Qed.

Lemma output_cons (s0 : Obj) students rules :
  output (s0 :: students) rules
  = (String.concat ", " (headers s0)
     :: String.concat ", "
          ([EmptyString]
           ++ map (λ r, "group " +:+ rule_attribute r +:+ " mean")
                  (List.filter (λ r, String.eqb (rule_name r) "Balance") rules)
           ++ ["Rules Broken"%string])
     :: newline
     :: (rows rules (length (headers s0))
              (sort_by_key obj_group_number (s0 :: students)) 0
              (sort_by_key obj_group_number (s0 :: students)) 1).1,
     (rows rules (length (headers s0))
           (sort_by_key obj_group_number (s0 :: students)) 0
           (sort_by_key obj_group_number (s0 :: students)) 1).2).
Proof.
  unfold student_augmented_output.
  by destruct (rows rules _ _ 0 _ 1).
Qed.

(** X17: on a list of students that is not empty,
    [student_augmented_output] does not raise; it writes three strings
    for the header, one per student, and four more at every student whose
    group number differs from the one held in [group_number], which
    starts at 1: a summary is written only when the group number
    changes. *)
Theorem augmented_output_counts (students : list Obj) (rules : list Rule) :
  students ≠ [] →
  (output students rules).2 = None ∧
  length (output students rules).1
  = (3 + length students
     + 4 * group_changes 1
             (map obj_group_number (sort_by_key obj_group_number students)))%nat.
Proof.
  destruct students as [|s0 students]; [done|]. intros _.
  rewrite output_cons. cbn [fst snd length].
  destruct (rows_count rules (length (headers s0))
              (sort_by_key obj_group_number (s0 :: students)) [] 1)
    as [He Hl].
  cbn [app length] in He, Hl. rewrite He, Hl, sort_by_key_length.
  split; [done|]. cbn [length]. lia.
Qed.

(** X18: the last string [student_augmented_output] writes is the record
    of the student that comes last when the students are sorted by group
    number: no summary follows the records of the last group. *)
Theorem augmented_output_ends_with_record (students : list Obj)
    (rules : list Rule) :
  students ≠ [] →
  ∃ s,
    last (sort_by_key obj_group_number students) = Some s ∧
    last (output students rules).1 = Some (full_record s +:+ newline).
Proof.
  destruct students as [|s0 students]; [done|]. intros _.
  destruct (last (sort_by_key obj_group_number (s0 :: students)))
    as [s|] eqn:Hlast.
  - exists s. split; [done|]. rewrite output_cons. cbn [fst].
    pose proof (rows_last rules (length (headers s0))
                  (sort_by_key obj_group_number (s0 :: students)) [] 1) as Hr.
    cbn [app length] in Hr. by rewrite !last_cons, Hr, Hlast.
  - apply last_None in Hlast.
    pose proof (sort_by_key_length obj_group_number (s0 :: students)) as Hl.
    by rewrite Hlast in Hl.
Qed.

(** X19: when the student with the smallest group number is in group 1,
    the records start right after the header.  When that number is not 1,
    a summary is written before the first record, and [students[i-1]] at
    [i = 0] makes it the summary of the group of the last student, the one
    with the largest group number. *)
Theorem augmented_output_first_block (students : list Obj) (rules : list Rule)
    (s : Obj) (rest : list Obj) (q : Obj) :
  sort_by_key obj_group_number students = s :: rest →
  last (s :: rest) = Some q →
  (obj_group_number s = 1 →
   (output students rules).1 !! 3%nat = Some (full_record s +:+ newline)) ∧
  (obj_group_number s ≠ 1 →
   (output students rules).1 !! 3%nat = Some "summary"%string ∧
   (output students rules).1 !! 5%nat
     = Some (String.concat ", " (summary rules (obj_group q))) ∧
   (output students rules).1 !! 7%nat = Some (full_record s +:+ newline)).
Proof.
  intros Hsort Hlast.
  destruct students as [|s0 students]; [done|].
  rewrite output_cons, Hsort. cbn [fst].
  rewrite augmented_rows_cons.
  assert (item_before (s :: rest) 0 = Ok q) as ->
    by (unfold item_before; by rewrite Hlast).
  split.
  - intros Hone. by rewrite bool_decide_eq_false_2 by (intros H; by apply H).
  - intros Hne. by rewrite bool_decide_eq_true_2 by done.
Qed.

End AugmentedFacts.

(** ** The further statements on concrete inputs *)

Lemma run_missing_deck_key_witness :
  Edge.run_with Partitioner.make_initial_groups Engine.apply_rules_list_id
    "no_classlist" = Raise KeyError ∧
  Edge.run_with Partitioner.make_initial_groups Engine.apply_rules_list_id
    "no_group_size" = Raise KeyError ∧
  Edge.run_with Partitioner.make_initial_groups Engine.apply_rules_list_id
    "no_rules" = Raise KeyError.
Proof.
  split; [|split].
  - destruct (run_missing_deck_key Edge.read_input Edge.load_classlist
                Edge.make_rule Partitioner.make_initial_groups
                Engine.apply_rules_list_id Edge.check_other
                Edge.mean_text "no_classlist" _ eq_refl) as [H _].
    exact (H eq_refl).
  - destruct (run_missing_deck_key Edge.read_input Edge.load_classlist
                Edge.make_rule Partitioner.make_initial_groups
                Engine.apply_rules_list_id Edge.check_other
                Edge.mean_text "no_group_size" _ eq_refl) as [_ H].
    destruct (H "five.csv"%string _ _ eq_refl eq_refl) as [H1 _].
    exact (H1 eq_refl).
  - destruct (run_missing_deck_key Edge.read_input Edge.load_classlist
                Edge.make_rule Partitioner.make_initial_groups
                Engine.apply_rules_list_id Edge.check_other
                Edge.mean_text "no_rules" _ eq_refl) as [_ H].
    destruct (H "five.csv"%string _ _ eq_refl eq_refl) as [_ H2].
    exact (H2 2 eq_refl eq_refl).
Defined.

Lemma run_empty_classlist_witness :
  Edge.run_with Partitioner.make_initial_groups Engine.apply_rules_list_id
    "empty_class" = Raise IndexError.
Proof.
  eapply (run_empty_classlist Edge.read_input Edge.load_classlist
            Edge.make_rule Partitioner.make_initial_groups
            Engine.apply_rules_list_id Edge.check_other Edge.mean_text
            "empty_class"); reflexivity.
Defined.

Lemma run_first_bad_rule_witness :
  Edge.run_with Partitioner.make_initial_groups Engine.apply_rules_list_id
    "typo_in_rules" = Raise (ExternalError "balanse gpa").
Proof.
  eapply (run_first_bad_rule Edge.read_input Edge.load_classlist
            Edge.make_rule Partitioner.make_initial_groups
            Engine.apply_rules_list_id Edge.check_other Edge.mean_text
            "typo_in_rules" _ _ _ _ _ ["balance gpa"%string]
            "balanse gpa"%string ["no such rule"%string]);
    reflexivity.
Defined.


Lemma run_returns_sorted_groups_witness :
  ∃ out,
    Edge.run_with Partitioner.make_initial_groups Engine.apply_rules_list_rev
      "five_by_two" = Ok out ∧
    Sorted (λ g h, group_number g ≤ group_number h) (out_groups out).
Proof.
  eexists. split; [vm_compute; reflexivity|].
  destruct (run_returns_sorted_groups Edge.read_input Edge.load_classlist
              Edge.make_rule Partitioner.make_initial_groups
              Engine.apply_rules_list_rev Edge.check_other Edge.mean_text
              "five_by_two" _ ltac:(vm_compute; reflexivity))
    as (p & b & gs & st & _ & _ & _ & Hsorted & _).
  exact Hsorted.
Defined.

Lemma run_KeyError_without_identifier_witness :
  Edge.run_with Partitioner.make_initial_groups Engine.apply_rules_list_id
    "nameless" = Raise KeyError.
Proof.
  eapply (run_KeyError_without_identifier Edge.read_input Edge.load_classlist
            Edge.make_rule Partitioner.make_initial_groups
            Engine.apply_rules_list_id Edge.check_other Edge.mean_text
            "nameless").
  - vm_compute; reflexivity.
  - vm_compute; reflexivity.
  - cbn [e_groups e_course e_identifier].
    apply Exists_exists. exists (Edge.nameless 25). split.
    + apply elem_of_app. right. vm_compute.
      apply list_elem_of_In. right. left. reflexivity.
    + vm_compute; reflexivity.
Defined.


Lemma next_until_stop_drains_witness :
  (next_until_stop 3 (py_filter is_Balance Example.user_rules)).1
  = [Balance "gpa"; Balance "ID"] ∧
  exhausted (next_until_stop 3 (py_filter is_Balance Example.user_rules)).2.
Proof.
  destruct (next_until_stop_drains 3 (py_filter is_Balance Example.user_rules)
              ltac:(simpl; lia)) as [H1 H2].
  split; [exact H1 | exact H2].
Defined.

Lemma rule_report_lists_user_rules_witness :
  ∃ out,
    Edge.run_with Partitioner.make_initial_groups Engine.apply_rules_list_rev
      "five_by_two" = Ok out ∧
    length (out_rule_report out) = 3%nat.
Proof.
  eexists. split; [vm_compute; reflexivity|].
  destruct (rule_report_lists_user_rules Edge.read_input Edge.load_classlist
              Edge.make_rule Partitioner.make_initial_groups
              Engine.apply_rules_list_rev Edge.check_other Edge.mean_text
              "five_by_two" _ ltac:(vm_compute; reflexivity))
    as (dek & descs & c0 & ur & Hd & Hdescs & _ & _ & Hlen & _).
  injection Hd as <-. injection Hdescs as <-. exact Hlen.
Defined.

Lemma summaries_list_failed_rules_witness :
  ∃ out,
    Edge.run_with Partitioner.make_initial_groups Engine.apply_rules_list_rev
      "five_by_two" = Ok out ∧
    Forall2 (λ x g,
               x.1 = group_number g ∧
               List.filter (λ i, negb (is_MeanItem i)) x.2
               = map FailedItem
                   (List.filter
                      (λ r, negb (check Edge.check_other (out_course out) r g))
                      (out_rules out)))
            (out_summaries out) (out_groups out).
Proof.
  eexists. split; [vm_compute; reflexivity|].
  apply (summaries_list_failed_rules Edge.read_input Edge.load_classlist
           Edge.make_rule Partitioner.make_initial_groups
           Engine.apply_rules_list_rev Edge.check_other Edge.mean_text
           "five_by_two").
  vm_compute; reflexivity.
Defined.

Lemma balance_means_only_in_first_summary_witness :
  ∃ out,
    Edge.run_with Edge.one_group Engine.apply_rules_list_rev "five_by_two"
      = Ok out ∧
    Forall (λ x, Forall (λ i, is_MeanItem i = false) x.2)
           (tail (out_summaries out)).
Proof.
  eexists. split; [vm_compute; reflexivity|].
  destruct (balance_means_only_in_first_summary Edge.read_input
              Edge.load_classlist Edge.make_rule Edge.one_group
              Engine.apply_rules_list_rev Edge.check_other Edge.mean_text
              "five_by_two" _ ltac:(vm_compute; reflexivity))
    as (p & _ & Htail & _).
  exact Htail.
Defined.

Lemma group_output_KeyError_witness :
  group_output [mkGroup 2 [Edge.pupil "bob" 25; Edge.nameless 29];
                mkGroup 1 [Edge.pupil "cy" 38; Edge.pupil "ann" 31]]
               "ID" ", "
  = ([mkGroup 1 [Edge.pupil "cy" 38; Edge.pupil "ann" 31];
      mkGroup 2 [Edge.pupil "bob" 25; Edge.nameless 29]],
     (["Group 1, ann, cy" +:+ newline], Some KeyError)).
Proof.
  apply (group_output_KeyError
           [mkGroup 2 [Edge.pupil "bob" 25; Edge.nameless 29];
            mkGroup 1 [Edge.pupil "cy" 38; Edge.pupil "ann" 31]]
           [mkGroup 1 [Edge.pupil "cy" 38; Edge.pupil "ann" 31]] []
           (mkGroup 2 [Edge.pupil "bob" 25; Edge.nameless 29])).
  - reflexivity.
  - constructor; [vm_compute; reflexivity | constructor].
  - apply Exists_cons. right. apply Exists_cons. left.
    vm_compute; reflexivity.
Defined.

Lemma group_line_sorted_names_witness :
  ∃ names,
    group_line "ID" ", " (mkGroup 4 Edge.class5)
      = Ok ("Group " +:+ pretty 4 +:+ ", " +:+ String.concat ", " names
            +:+ newline) ∧
    names ≡ₚ ["ann"; "bob"; "cy"; "dee"; "eve"]%string ∧
    Sorted (λ a b, String.ltb b a = false) names.
Proof.
  apply (group_line_sorted_names "ID" ", " (mkGroup 4 Edge.class5)).
  repeat constructor.
Defined.

Lemma group_output_after_run_witness :
  ∃ out,
    Edge.run_with Partitioner.make_initial_groups Engine.apply_rules_list_rev
      "five_by_two" = Ok out ∧
    (group_output (out_groups out) "ID" ", ").1 = out_groups out.
Proof.
  eexists. split; [vm_compute; reflexivity|].
  destruct (group_output_after_run Edge.read_input Edge.load_classlist
              Edge.make_rule Partitioner.make_initial_groups
              Engine.apply_rules_list_rev Edge.check_other Edge.mean_text
              "five_by_two" _ ", " ltac:(vm_compute; reflexivity))
    as (e & He & Hsame & _).
  vm_compute in He. injection He as <-. exact Hsame.
Defined.

Lemma full_output_after_run_witness :
  ∃ out,
    Edge.run_with Partitioner.make_initial_groups Engine.apply_rules_list_id
      "only_a_phantom" = Ok out ∧
    student_full_output (λ _ : Student, ["ID"; "gpa"]%string)
      (λ s, str_value (default VNone (data s !! "ID"%string)))
      (course_students (out_course out))
    = ([], Some IndexError).
Proof.
  eexists. split; [vm_compute; reflexivity|].
  destruct (full_output_after_run Edge.read_input Edge.load_classlist
              Edge.make_rule Partitioner.make_initial_groups
              Engine.apply_rules_list_id Edge.check_other Edge.mean_text
              (λ _ : Student, ["ID"; "gpa"]%string)
              (λ s, str_value (default VNone (data s !! "ID"%string)))
              "only_a_phantom" _ ltac:(vm_compute; reflexivity))
    as (e & He & Hempty & _).
  vm_compute in He. injection He as <-. apply Hempty.
  repeat constructor.
Defined.

Lemma augmented_output_counts_witness :
  (Sheet.augmented Sheet.class).2 = None ∧
  length (Sheet.augmented Sheet.class).1 = (3 + 5 + 4 * 2)%nat.
Proof.
  apply (augmented_output_counts Sheet.headers Sheet.full_record
           Sheet.obj_group_number Sheet.obj_group Sheet.rule_name
           Sheet.mean_str Sheet.check_members Sheet.class Sheet.rules).
  discriminate.
Defined.

Lemma augmented_output_ends_with_record_witness :
  ∃ s,
    last (sort_by_key Sheet.obj_group_number Sheet.class) = Some s ∧
    last (Sheet.augmented Sheet.class).1
      = Some (Sheet.full_record s +:+ newline).
Proof.
  apply (augmented_output_ends_with_record Sheet.headers Sheet.full_record
           Sheet.obj_group_number Sheet.obj_group Sheet.rule_name
           Sheet.mean_str Sheet.check_members Sheet.class Sheet.rules).
  discriminate.
Defined.

Lemma augmented_output_first_block_witness :
  (Sheet.augmented Sheet.class_from_two).1 !! 3%nat = Some "summary"%string ∧
  (Sheet.augmented Sheet.class_from_two).1 !! 5%nat
    = Some (String.concat ", "
              (summary_items Sheet.rule_name Sheet.mean_str
                             Sheet.check_members Sheet.rules 4)) ∧
  (Sheet.augmented Sheet.class_from_two).1 !! 7%nat
    = Some (Sheet.full_record ("bob"%string, 2, 25) +:+ newline).
Proof.
  apply (augmented_output_first_block Sheet.headers Sheet.full_record
           Sheet.obj_group_number Sheet.obj_group Sheet.rule_name
           Sheet.mean_str Sheet.check_members Sheet.class_from_two Sheet.rules
           ("bob"%string, 2, 25) [("ann"%string, 3, 31); ("cy"%string, 4, 38)]
           ("cy"%string, 4, 38)).
  - reflexivity.
  - reflexivity.
  - discriminate.
Defined.
